(** * UniBoard Lite: the whiteboard synchronisation hook

    A shallow embedding of [useWhiteboard] (the hook of
    src/hooks/useWhiteboard.ts), of the payload types it exchanges and of
    the tool table of the toolbar, followed by the properties of the
    drawing state machine, the replication log, the catch-up handshake,
    host election and the cursor throttle.

    Conventions of the embedding.
    - A JavaScript [number] that holds a coordinate or a stroke width is a
      binary64 [float]; the hook stores such numbers and never computes
      with them.
    - A clock reading ([Date.now()], [new Date(s).getTime()]) is an integer
      number of milliseconds, a [Z].  The [online_at] field of a presence
      record is kept as that reading of its ISO string.
    - [uuidv4()] and [Date.now()] are inputs of the operation that calls
      them.
    - React state and refs are the fields of one record, [Client];
      functional updaters run in the order in which they were queued, once
      each.  The field [strokes] is the log as the next render shows it;
      the ref [strokesRef] is written by an effect only, after a render.
    - A handler runs to completion.  The effects run between two handlers
      or not: [tick], [play] and [live] take the effects as a tick of
      their own, so that the ref may lag behind the log; [step], [run] and
      [session] describe the schedule in which every handler is followed
      by a render and its effects.
    - Everything sent to the transport is recorded, in order, as a list of
      [Action]s. *)

From Stdlib Require Import List String ZArith Bool Lia Floats Permutation Sorted.
Import ListNotations.
Local Open Scope string_scope.
Local Open Scope Z_scope.
Local Open Scope list_scope.

(** ** Payload types (src/types) *)

Module Point.
Record t := mk { x : float; y : float }.
End Point.

Module Stroke.
Record t := mk {
    id : string;
    userId : string;
    color : string;
    width : float;
    points : list Point.t
  }.
End Stroke.

Module UserCursor.
Record t := mk { id : string; x : float; y : float; name : string }.
End UserCursor.

Module ReqStatePayload.
Record t := mk { requesterId : string }.
End ReqStatePayload.

Module SyncStatePayload.
Record t := mk { strokes : list Stroke.t }.
End SyncStatePayload.

(** A record of the presence registry, as the handlers read it:
    [{ user_id; online_at; name? }]. *)
Module Presence.
Record t := mk { user_id : string; online_at : Z; name : option string }.
End Presence.

(** [channel.presenceState()]: an object from presence keys to arrays of
    records, enumerated by [for (const key in state)] in key order. *)
Definition PresenceState := list (string * list Presence.t).

(** ** Constants *)

Module COLORS.
Definition BLACK := "#000000".
Definition RED := "#FF0000".
Definition BLUE := "#0000FF".
Definition GREEN := "#008000".
Definition ERASER := "#FFFFFF".
End COLORS.

Module WIDTHS.
Definition PEN : float := 4%float.
Definition ERASER : float := 20%float.
End WIDTHS.

(** The canvas background, [ctx.fillStyle = '#FFFFFF'] in Canvas.tsx. *)
Definition canvasBackground := "#FFFFFF".

(** The toolbar's [tools] table (Toolbar.tsx). *)
Module Tool.
Record t := mk { color : string; width : float; label : string }.
End Tool.

Definition tools : list Tool.t :=
  [ Tool.mk COLORS.BLACK WIDTHS.PEN "Black";
    Tool.mk COLORS.RED WIDTHS.PEN "Red";
    Tool.mk COLORS.BLUE WIDTHS.PEN "Blue";
    Tool.mk COLORS.GREEN WIDTHS.PEN "Green";
    Tool.mk COLORS.ERASER WIDTHS.ERASER "Eraser" ].

Definition eraserTool : Tool.t := Tool.mk COLORS.ERASER WIDTHS.ERASER "Eraser".

(** ** What the hook sends *)

Inductive Message :=
| cursor_move (payload : UserCursor.t)
| draw_line (payload : Stroke.t)
| req_state (payload : ReqStatePayload.t)
| sync_state (payload : SyncStatePayload.t).

(** [channel.send({type: 'broadcast', event, payload})] and
    [channel.track({online_at, user_id, name})]. *)
Inductive Action :=
| send (m : Message)
| track (online_at : Z) (user_id name : string).

(** ** The hook's state *)

Module User.
Record t := mk { id : string; name : string; color : string; width : float }.
End User.

Record Client := mkClient {
  strokes : list Stroke.t;
  currentStroke : option Stroke.t;
  peers : list UserCursor.t;
  activeUsers : list string;
  currentUser : User.t;
  channelRef : option string;
  lastCursorUpdate : Z;
  strokesRef : list Stroke.t;
  hasRequestedState : bool
}.

Definition setStrokes (f : list Stroke.t -> list Stroke.t) (st : Client) : Client :=
  mkClient (f (strokes st)) (currentStroke st) (peers st) (activeUsers st)
    (currentUser st) (channelRef st) (lastCursorUpdate st) (strokesRef st)
    (hasRequestedState st).

Definition setCurrentStroke (c : option Stroke.t) (st : Client) : Client :=
  mkClient (strokes st) c (peers st) (activeUsers st)
    (currentUser st) (channelRef st) (lastCursorUpdate st) (strokesRef st)
    (hasRequestedState st).

Definition setPeers (f : list UserCursor.t -> list UserCursor.t) (st : Client) : Client :=
  mkClient (strokes st) (currentStroke st) (f (peers st)) (activeUsers st)
    (currentUser st) (channelRef st) (lastCursorUpdate st) (strokesRef st)
    (hasRequestedState st).

Definition setActiveUsers (us : list string) (st : Client) : Client :=
  mkClient (strokes st) (currentStroke st) (peers st) us
    (currentUser st) (channelRef st) (lastCursorUpdate st) (strokesRef st)
    (hasRequestedState st).

Definition setCurrentUser (f : User.t -> User.t) (st : Client) : Client :=
  mkClient (strokes st) (currentStroke st) (peers st) (activeUsers st)
    (f (currentUser st)) (channelRef st) (lastCursorUpdate st) (strokesRef st)
    (hasRequestedState st).

Definition setChannelRef (c : option string) (st : Client) : Client :=
  mkClient (strokes st) (currentStroke st) (peers st) (activeUsers st)
    (currentUser st) c (lastCursorUpdate st) (strokesRef st)
    (hasRequestedState st).

Definition setLastCursorUpdate (t : Z) (st : Client) : Client :=
  mkClient (strokes st) (currentStroke st) (peers st) (activeUsers st)
    (currentUser st) (channelRef st) t (strokesRef st)
    (hasRequestedState st).

Definition setStrokesRef (l : list Stroke.t) (st : Client) : Client :=
  mkClient (strokes st) (currentStroke st) (peers st) (activeUsers st)
    (currentUser st) (channelRef st) (lastCursorUpdate st) l
    (hasRequestedState st).

Definition setHasRequestedState (b : bool) (st : Client) : Client :=
  mkClient (strokes st) (currentStroke st) (peers st) (activeUsers st)
    (currentUser st) (channelRef st) (lastCursorUpdate st) (strokesRef st) b.

(** [channelRef.current?.send(m)]: nothing is sent while the ref is null. *)
Definition sendIfChannel (st : Client) (m : Message) : list Action :=
  match channelRef st with
  | Some _ => [send m]
  | None => []
  end.

(** The initial render: the [useState] and [useRef] initial values, with
    [uid] the identifier [uuidv4()] returned. *)
Definition init (uid : string) : Client :=
  mkClient [] None [] [] (User.mk uid "" COLORS.BLACK WIDTHS.PEN) None 0 [] false.

(** [new URLSearchParams(...).get('room') || 'room-1']. *)
Definition roomId (param : option string) : string :=
  match param with
  | Some r => if String.eqb r "" then "room-1" else r
  | None => "room-1"
  end.

(** The mount effect: the channel is created, the handlers are registered
    and [channelRef.current] is set.  The name effect that follows sends
    nothing, the name being empty. *)
Definition mount (param : option string) (st : Client) : Client :=
  setChannelRef (Some (roomId param)) st.

(** ** Presence and host election (inlined in the handlers of the source) *)

(** The loop [for (const key in state) allPresences.push(...state[key])]. *)
Definition allPresences (state : PresenceState) : list Presence.t :=
  flat_map snd state.

(** [allPresences.sort((a, b) => timeA - timeB)].  [Array.prototype.sort]
    is stable, and a stable sort by a key has one result; it is computed
    here by insertion from the right, where a record goes in front of the
    first record that is not older than it. *)
Fixpoint insertByOnlineAt (p : Presence.t) (l : list Presence.t) : list Presence.t :=
  match l with
  | [] => [p]
  | q :: l' =>
      if Presence.online_at p <=? Presence.online_at q
      then p :: q :: l'
      else q :: insertByOnlineAt p l'
  end.

Fixpoint sortByOnlineAt (l : list Presence.t) : list Presence.t :=
  match l with
  | [] => []
  | p :: l' => insertByOnlineAt p (sortByOnlineAt l')
  end.

(** The elected host: [allPresences[0].user_id] after the sort, when
    [allPresences.length > 0]. *)
Definition electHost (l : list Presence.t) : option string :=
  match sortByOnlineAt l with
  | [] => None
  | p :: _ => Some (Presence.user_id p)
  end.

(** [allPresences.length > 0 && allPresences[0].user_id === currentUser.id]. *)
Definition isHost (me : string) (l : list Presence.t) : bool :=
  match sortByOnlineAt l with
  | [] => false
  | p :: _ => String.eqb (Presence.user_id p) me
  end.

(** [p.name || 'Anonymous']. *)
Definition displayName (p : Presence.t) : string :=
  match Presence.name p with
  | Some n => if String.eqb n "" then "Anonymous" else n
  | None => "Anonymous"
  end.

(** ** Channel handlers *)

Definition on_cursor_move (payload : UserCursor.t) (st : Client) : Client * list Action :=
  (setPeers (fun prev =>
     let otherPeers :=
       filter (fun p => negb (String.eqb (UserCursor.id p) (UserCursor.id payload))) prev in
     otherPeers ++ [payload]) st, []).

Definition on_draw_line (payload : Stroke.t) (st : Client) : Client * list Action :=
  (setStrokes (fun prev => prev ++ [payload]) st, []).

Definition on_req_state (payload : ReqStatePayload.t) (state : PresenceState)
    (st : Client) : Client * list Action :=
  if String.eqb (ReqStatePayload.requesterId payload) (User.id (currentUser st))
  then (st, [])
  else
    if isHost (User.id (currentUser st)) (allPresences state)
    then (st, [send (sync_state (SyncStatePayload.mk (strokesRef st)))])
    else (st, []).

Definition on_sync_state (payload : SyncStatePayload.t) (st : Client) : Client * list Action :=
  (setStrokes (fun _ => SyncStatePayload.strokes payload) st, []).

Definition on_presence_sync (state : PresenceState) (st : Client) : Client * list Action :=
  let all := allPresences state in
  let st1 := setActiveUsers (map displayName all) st in
  if negb (hasRequestedState st1) && (1 <? List.length all)%nat
  then (setHasRequestedState true st1,
        [send (req_state (ReqStatePayload.mk (User.id (currentUser st1))))])
  else (st1, []).

(** The [subscribe] callback.  Its closure holds the [currentUser] of the
    mount render, whose name is empty. *)
Definition on_subscribe (status : string) (now : Z) (st : Client) : Client * list Action :=
  if String.eqb status "SUBSCRIBED"
  then (st, [track now (User.id (currentUser st)) ""])
  else (st, []).

(** ** The hook's callbacks *)

Definition startDrawing (x y : float) (uuid : string) (st : Client) : Client * list Action :=
  let newStroke :=
    Stroke.mk uuid (User.id (currentUser st)) (User.color (currentUser st))
      (User.width (currentUser st)) [Point.mk x y] in
  (setCurrentStroke (Some newStroke) st, []).

Definition draw (x y : float) (now : Z) (st : Client) : Client * list Action :=
  let st1 :=
    setCurrentStroke
      match currentStroke st with
      | None => None
      | Some prev =>
          Some (Stroke.mk (Stroke.id prev) (Stroke.userId prev) (Stroke.color prev)
                  (Stroke.width prev) (Stroke.points prev ++ [Point.mk x y]))
      end st in
  if now - lastCursorUpdate st1 >? 50
  then (setLastCursorUpdate now st1,
        sendIfChannel st1
          (cursor_move (UserCursor.mk (User.id (currentUser st1)) x y
                          (User.name (currentUser st1)))))
  else (st1, []).

Definition moveCursor (x y : float) (now : Z) (st : Client) : Client * list Action :=
  if now - lastCursorUpdate st >? 50
  then (setLastCursorUpdate now st,
        sendIfChannel st
          (cursor_move (UserCursor.mk (User.id (currentUser st)) x y
                          (User.name (currentUser st)))))
  else (st, []).

Definition endDrawing (st : Client) : Client * list Action :=
  match currentStroke st with
  | Some prev =>
      (setCurrentStroke None (setStrokes (fun history => history ++ [prev]) st),
       sendIfChannel st (draw_line prev))
  | None => (setCurrentStroke None st, [])
  end.

Definition setTool (color : string) (width : float) (st : Client) : Client * list Action :=
  (setCurrentUser (fun prev => User.mk (User.id prev) (User.name prev) color width) st, []).

(** [setDisplayName], with the name effect that the next render runs when
    the name has changed: [if (channelRef.current && currentUser.name)
    channelRef.current.track(...)]. *)
Definition setDisplayName (name : string) (now : Z) (st : Client) : Client * list Action :=
  let st1 :=
    setCurrentUser (fun prev => User.mk (User.id prev) name (User.color prev) (User.width prev)) st in
  if String.eqb name (User.name (currentUser st))
  then (st1, [])
  else
    match channelRef st1 with
    | Some _ =>
        if String.eqb name "" then (st1, [])
        else (st1, [track now (User.id (currentUser st1)) name])
    | None => (st1, [])
    end.

(** The effect [strokesRef.current = strokes], run after a render. *)
Definition syncRef (st : Client) : Client := setStrokesRef (strokes st) st.

(** ** Events and sessions *)

(** What a mounted hook reacts to: the channel's callbacks and the
    callbacks that the components invoke (Canvas, Toolbar, the login
    modal).  The hook also returns the raw setter of [strokes]; no
    component calls it, and it is not an event. *)
Inductive Event :=
| RecvCursorMove (payload : UserCursor.t)
| RecvDrawLine (payload : Stroke.t)
| RecvReqState (payload : ReqStatePayload.t) (state : PresenceState)
| RecvSyncState (payload : SyncStatePayload.t)
| PresenceSync (state : PresenceState)
| Subscribe (status : string) (now : Z)
| StartDrawing (x y : float) (uuid : string)
| Draw (x y : float) (now : Z)
| MoveCursor (x y : float) (now : Z)
| EndDrawing
| SetTool (color : string) (width : float)
| SetDisplayName (name : string) (now : Z).

Definition handle (e : Event) (st : Client) : Client * list Action :=
  match e with
  | RecvCursorMove payload => on_cursor_move payload st
  | RecvDrawLine payload => on_draw_line payload st
  | RecvReqState payload state => on_req_state payload state st
  | RecvSyncState payload => on_sync_state payload st
  | PresenceSync state => on_presence_sync state st
  | Subscribe status now => on_subscribe status now st
  | StartDrawing x y uuid => startDrawing x y uuid st
  | Draw x y now => draw x y now st
  | MoveCursor x y now => moveCursor x y now st
  | EndDrawing => endDrawing st
  | SetTool color width => setTool color width st
  | SetDisplayName name now => setDisplayName name now st
  end.

(** One event in the schedule where the component renders, and its
    effects run, before the next event: the handler, then the effects. *)
Definition step (e : Event) (st : Client) : Client * list Action :=
  let (st', acts) := handle e st in (syncRef st', acts).

Fixpoint run (evs : list Event) (st : Client) : Client * list Action :=
  match evs with
  | [] => (st, [])
  | e :: evs' =>
      let (st1, a1) := step e st in
      let (st2, a2) := run evs' st1 in
      (st2, a1 ++ a2)
  end.

(** A session in that schedule: the hook is mounted, then handles [evs],
    rendering after each. *)
Definition session (uid : string) (param : option string) (evs : list Event)
    : Client * list Action :=
  run evs (mount param (init uid)).

(** The Canvas wiring of pointer events (Canvas.tsx). *)
Definition handleMouseDown (x y : float) (uuid : string) (now : Z) : list Event :=
  [StartDrawing x y uuid; MoveCursor x y now].

Definition handleMouseMove (buttons : Z) (x y : float) (now : Z) : list Event :=
  (if buttons =? 1 then [Draw x y now] else []) ++ [MoveCursor x y now].

Definition handleMouseUp : list Event := [EndDrawing].

(** ** Observations on the recorded actions *)

Definition isCursorMove (a : Action) : bool :=
  match a with send (cursor_move _) => true | _ => false end.

Definition isDrawLine (a : Action) : bool :=
  match a with send (draw_line _) => true | _ => false end.

Definition isReqState (a : Action) : bool :=
  match a with send (req_state _) => true | _ => false end.

Definition isSyncState (a : Action) : bool :=
  match a with send (sync_state _) => true | _ => false end.

Definition count (f : Action -> bool) (acts : list Action) : nat :=
  List.length (filter f acts).

(** ** Vocabulary of the properties *)

(** What holds of the state between two events of a session of user
    [uid]: the channel ref is set, the stroke ref mirrors the log, and the
    user's identifier is the one generated at the first render. *)
Definition settled (uid : string) (st : Client) : Prop :=
  channelRef st <> None /\
  strokesRef st = strokes st /\
  User.id (currentUser st) = uid.

Ltac unfold_handlers :=
  unfold handle, on_cursor_move, on_draw_line, on_req_state, on_sync_state,
    on_presence_sync, on_subscribe, startDrawing, draw, moveCursor, endDrawing,
    setTool, setDisplayName, sendIfChannel in *.

Ltac break_ifs :=
  repeat match goal with
    | |- context [if ?b then _ else _] => destruct b eqn:?
    | |- context [match ?o with Some _ => _ | None => _ end] => destruct o eqn:?
    end.

Definition isRecvSyncState (e : Event) : bool :=
  match e with RecvSyncState _ => true | _ => false end.

Definition isPointerMove (e : Event) : bool :=
  match e with Draw _ _ _ | MoveCursor _ _ _ => true | _ => false end.

(** The events of one stroke drawn with tool [t]: the tool's button, the
    pointer going down, the pointer moving, the pointer going up. *)
Definition strokeGesture (t : Tool.t) (x y : float) (uuid : string)
    (moves : list Event) : list Event :=
  [SetTool (Tool.color t) (Tool.width t); StartDrawing x y uuid] ++ moves ++ [EndDrawing].

(** A room of three members that joined at t = 1, 2 and 3, enumerated in
    another order than they joined. *)
Definition threeMembers : PresenceState :=
  [ ("k3", [Presence.mk "c" 3 (Some "Cy")]);
    ("k1", [Presence.mk "a" 1 (Some "Al")]);
    ("k2", [Presence.mk "b" 2 None]) ].

(** A presence notification that shows more than one record. *)
Definition crowded (e : Event) : bool :=
  match e with
  | PresenceSync state => (1 <? List.length (allPresences state))%nat
  | _ => false
  end.

Definition olderEq (p q : Presence.t) : Prop :=
  Presence.online_at p <= Presence.online_at q.

(** [p] is a record of [l] that no record of [l] precedes in join time. *)
Definition oldest (l : list Presence.t) (p : Presence.t) : Prop :=
  In p l /\ forall r, In r l -> olderEq p r.

(** The smallest join time of [l] belongs to one user. *)
Definition uniqueOldest (l : list Presence.t) : Prop :=
  forall p q, oldest l p -> oldest l q -> Presence.user_id p = Presence.user_id q.

(** A pointer-move callback whose clock reading lies in [lo, hi]. *)
Definition within (lo hi : Z) (e : Event) : bool :=
  match e with
  | Draw _ _ now | MoveCursor _ _ now => (lo <=? now) && (now <=? hi)
  | _ => false
  end.

(** The events of pointer moves that follow one another every [dt]
    milliseconds from time [t] on; a move is the button state and the
    position the Canvas reads. *)
Fixpoint pointerMovesEvery (dt t : Z) (moves : list (Z * Point.t)) : list Event :=
  match moves with
  | [] => []
  | (buttons, p) :: rest =>
      handleMouseMove buttons (Point.x p) (Point.y p) t
        ++ pointerMovesEvery dt (t + dt) rest
  end.

Definition cursorMessages (acts : list Action) : Z :=
  Z.of_nat (count isCursorMove acts).

(** ** The canvas (Canvas.tsx) *)

(** The calls made on the 2D context, in order. *)
Module Ctx.
Inductive op :=
| clearRect (x y w h : float)
| fillStyle (c : string)
| fillRect (x y w h : float)
| beginPath
| lineCap (v : string)
| lineJoin (v : string)
| strokeStyle (c : string)
| lineWidth (w : float)
| moveTo (x y : float)
| lineTo (x y : float)
| stroke.
End Ctx.

Definition canvasWidth : float := 1920%float.
Definition canvasHeight : float := 1080%float.

(** [drawStroke]: nothing for a stroke without points; else a path from
    the first point through the others. *)
Definition drawStroke (s : Stroke.t) : list Ctx.op :=
  match Stroke.points s with
  | [] => []
  | p0 :: ps =>
      [Ctx.beginPath; Ctx.lineCap "round"; Ctx.lineJoin "round";
       Ctx.strokeStyle (Stroke.color s); Ctx.lineWidth (Stroke.width s);
       Ctx.moveTo (Point.x p0) (Point.y p0)]
      ++ map (fun p => Ctx.lineTo (Point.x p) (Point.y p)) ps
      ++ [Ctx.stroke]
  end.

(** The paint effect of the canvas, run for [strokes] and
    [currentStroke]. *)
Definition paint (log : list Stroke.t) (current : option Stroke.t) : list Ctx.op :=
  [Ctx.clearRect 0 0 canvasWidth canvasHeight;
   Ctx.fillStyle "#FFFFFF";
   Ctx.fillRect 0 0 canvasWidth canvasHeight]
  ++ flat_map drawStroke log
  ++ match current with
     | Some s => drawStroke s
     | None => []
     end.

(** The frame the canvas paints for a state of the hook. *)
Definition frame (st : Client) : list Ctx.op :=
  paint (strokes st) (currentStroke st).

Definition isLineTo (o : Ctx.op) : bool :=
  match o with Ctx.lineTo _ _ => true | _ => false end.

Definition isMoveTo (o : Ctx.op) : bool :=
  match o with Ctx.moveTo _ _ => true | _ => false end.

(** ** The toolbar and the user list *)

(** The highlight test of a tool button: [currentUser.color === tool.color
    && currentUser.width === tool.width]. *)
Definition selected (u : User.t) (t : Tool.t) : bool :=
  String.eqb (User.color u) (Tool.color t)
  && PrimFloat.eqb (User.width u) (Tool.width t).

(** The click handler of a tool button: [setTool(tool.color, tool.width)]. *)
Definition clickTool (t : Tool.t) : Event :=
  SetTool (Tool.color t) (Tool.width t).


(** ** Delivery of broadcasts *)

(** The dispatch of a broadcast to the handler registered for its event
    name; [state] is what [channel.presenceState()] returns at the
    receiver.  A [track] reaches the presence registry, not a handler. *)
Definition receive (state : PresenceState) (a : Action) : list Event :=
  match a with
  | send (cursor_move payload) => [RecvCursorMove payload]
  | send (draw_line payload) => [RecvDrawLine payload]
  | send (req_state payload) => [RecvReqState payload state]
  | send (sync_state payload) => [RecvSyncState payload]
  | track _ _ _ => []
  end.

Definition deliver (state : PresenceState) (acts : list Action) : list Event :=
  flat_map (receive state) acts.

(** ** More vocabulary *)

(** The last cursor kept for peer [i]. *)
Definition findPeer (i : string) (l : list UserCursor.t) : option UserCursor.t :=
  find (fun p => String.eqb (UserCursor.id p) i) l.

(** The callbacks the components invoke. *)
Definition isCallback (e : Event) : bool :=
  match e with
  | StartDrawing _ _ _ | Draw _ _ _ | MoveCursor _ _ _ | EndDrawing
  | SetTool _ _ | SetDisplayName _ _ => true
  | _ => false
  end.

Definition isStartOrEnd (e : Event) : bool :=
  match e with StartDrawing _ _ _ | EndDrawing => true | _ => false end.

Definition isRecvReqState (e : Event) : bool :=
  match e with RecvReqState _ _ => true | _ => false end.

Definition isRecvDrawLine (e : Event) : bool :=
  match e with RecvDrawLine _ => true | _ => false end.

(** The points that the [draw] calls among [evs] carry, in order. *)
Definition drawnPoints (evs : list Event) : list Point.t :=
  flat_map (fun e => match e with Draw x y _ => [Point.mk x y] | _ => [] end) evs.

(** A stroke with more points at its end. *)
Definition extendStroke (pts : list Point.t) (s : Stroke.t) : Stroke.t :=
  Stroke.mk (Stroke.id s) (Stroke.userId s) (Stroke.color s) (Stroke.width s)
    (Stroke.points s ++ pts).

(** What an action says about its sender, when it says it. *)
Definition senderOf (a : Action) : option string :=
  match a with
  | send (cursor_move payload) => Some (UserCursor.id payload)
  | send (draw_line payload) => Some (Stroke.userId payload)
  | send (req_state payload) => Some (ReqStatePayload.requesterId payload)
  | send (sync_state _) => None
  | track _ user_id _ => Some user_id
  end.

Definition isTrack (a : Action) : bool :=
  match a with track _ _ _ => true | _ => false end.

(** The user and the stroke in progress are those of [uid]. *)
Definition owned (uid : string) (st : Client) : Prop :=
  User.id (currentUser st) = uid /\
  forall s, currentStroke st = Some s -> Stroke.userId s = uid.

(** ** Handlers and effects as separate ticks *)

(** What happens to a mounted hook, one tick at a time: a handler runs, or
    the effects of a render run ([strokesRef.current = strokes]).  Nothing
    orders the arrival of a message after the effects of the render that
    the previous message asked for. *)
Inductive Tick :=
| Handle (e : Event)
| RunEffects.

Definition tick (t : Tick) (st : Client) : Client * list Action :=
  match t with
  | Handle e => handle e st
  | RunEffects => (syncRef st, [])
  end.

Fixpoint play (ts : list Tick) (st : Client) : Client * list Action :=
  match ts with
  | [] => (st, [])
  | t :: ts' =>
      let (st1, a1) := tick t st in
      let (st2, a2) := play ts' st1 in
      (st2, a1 ++ a2)
  end.

(** The hook is mounted, then goes through [ts]. *)
Definition live (uid : string) (param : option string) (ts : list Tick)
    : Client * list Action :=
  play ts (mount param (init uid)).

(** The ticks of the schedule of [run]. *)
Definition ticksOf (evs : list Event) : list Tick :=
  flat_map (fun e => [Handle e; RunEffects]) evs.

(** The events handled in a list of ticks. *)
Definition eventsOf (ts : list Tick) : list Event :=
  flat_map (fun t => match t with Handle e => [e] | RunEffects => [] end) ts.

Definition isHandle (t : Tick) : bool :=
  match t with Handle _ => true | RunEffects => false end.

(** A state with its ref put aside. *)
Definition forgetRef (st : Client) : Client := setStrokesRef [] st.

(** ** The host condition, read on the snapshot *)

(** A record of [me] is the first of [l] among the records with the
    smallest join time: the records before it joined later, the records
    after it did not join earlier.  This is the record that a stable sort
    by ascending join time puts first. *)
Definition oldestFirst (me : string) (l : list Presence.t) : Prop :=
  exists l1 p l2,
    l = l1 ++ p :: l2 /\
    Presence.user_id p = me /\
    (forall q, In q l1 -> Presence.online_at p < Presence.online_at q) /\
    (forall q, In q l2 -> Presence.online_at p <= Presence.online_at q).

(** ** The unit tests of the repository, replayed on the embedding *)

Example initial_state :
  strokes (fst (session "u" None [])) = [] /\
  currentStroke (fst (session "u" None [])) = None.
Proof. split; reflexivity. Qed.

Example drawing_updates_currentStroke :
  option_map Stroke.points
    (currentStroke (fst (session "u" None [StartDrawing 10 10 "s"; Draw 20 20 1000])))
  = Some [Point.mk 10 10; Point.mk 20 20].
Proof. reflexivity. Qed.

Example endDrawing_adds_to_history :
  let r := session "u" None [StartDrawing 10 10 "s"; Draw 20 20 1000; EndDrawing] in
  List.length (strokes (fst r)) = 1%nat /\
  currentStroke (fst r) = None /\
  count isDrawLine (snd r) = 1%nat.
Proof. repeat split; reflexivity. Qed.

Example tool_and_name :
  let r := session "u" None [SetDisplayName "Alice" 5; SetTool "#FF0000" 10] in
  User.name (currentUser (fst r)) = "Alice" /\
  User.color (currentUser (fst r)) = "#FF0000" /\
  User.width (currentUser (fst r)) = 10%float /\
  snd r = [track 5 "u" "Alice"].
Proof. repeat split; reflexivity. Qed.

(** ** Invariants of a session *)

Lemma handle_channelRef (e : Event) (st : Client) :
  channelRef (fst (handle e st)) = channelRef st.
Proof. destruct e; unfold_handlers; break_ifs; simpl; congruence. Qed.

Lemma handle_user_id (e : Event) (st : Client) :
  User.id (currentUser (fst (handle e st))) = User.id (currentUser st).
Proof. destruct e; unfold_handlers; break_ifs; simpl; congruence. Qed.

Lemma step_fst (e : Event) (st : Client) :
  fst (step e st) = syncRef (fst (handle e st)).
Proof. unfold step; destruct (handle e st); reflexivity. Qed.

Lemma step_snd (e : Event) (st : Client) :
  snd (step e st) = snd (handle e st).
Proof. unfold step; destruct (handle e st); reflexivity. Qed.

Lemma step_settled (uid : string) (e : Event) (st : Client) :
  settled uid st -> settled uid (fst (step e st)).
Proof.
  intros (Hc & _ & Hu). rewrite step_fst. repeat split.
  - change (channelRef (syncRef (fst (handle e st)))) with (channelRef (fst (handle e st))).
    now rewrite handle_channelRef.
  - change (currentUser (syncRef (fst (handle e st)))) with (currentUser (fst (handle e st))).
    now rewrite handle_user_id.
Qed.

Lemma run_cons (e : Event) (evs : list Event) (st : Client) :
  run (e :: evs) st =
  (fst (run evs (fst (step e st))), snd (step e st) ++ snd (run evs (fst (step e st)))).
Proof.
  simpl. destruct (step e st) as [st1 a1]. simpl.
  destruct (run evs st1); reflexivity.
Qed.

Lemma run_app (evs1 evs2 : list Event) (st : Client) :
  run (evs1 ++ evs2) st =
  (fst (run evs2 (fst (run evs1 st))),
   snd (run evs1 st) ++ snd (run evs2 (fst (run evs1 st)))).
Proof.
  revert st. induction evs1 as [|e evs1 IH]; intro st.
  - simpl. now destruct (run evs2 st).
  - rewrite <- app_comm_cons, !run_cons, IH. simpl. now rewrite app_assoc.
Qed.

Lemma run_settled (uid : string) (evs : list Event) (st : Client) :
  settled uid st -> settled uid (fst (run evs st)).
Proof.
  revert st. induction evs as [|e evs IH]; intros st H; [exact H|].
  rewrite run_cons. simpl. apply IH, step_settled, H.
Qed.

Lemma session_settled (uid : string) (param : option string) (evs : list Event) :
  settled uid (fst (session uid param evs)).
Proof.
  apply run_settled. repeat split. discriminate.
Qed.

(** ** The replication log *)

(** Every handler but the one of [sync-state] leaves the log as it is or
    appends one stroke to it. *)
Lemma handle_extends_log (e : Event) (st : Client) :
  isRecvSyncState e = false ->
  exists added, strokes (fst (handle e st)) = strokes st ++ added.
Proof.
  intro He. destruct e; try discriminate He; unfold_handlers;
    break_ifs; simpl;
    solve [ exists []; now rewrite app_nil_r | eexists; reflexivity ].
Qed.

Lemma run_extends_log (evs : list Event) (st : Client) :
  forallb (fun e => negb (isRecvSyncState e)) evs = true ->
  exists added, strokes (fst (run evs st)) = strokes st ++ added.
Proof.
  revert st. induction evs as [|e evs IH]; intros st H.
  - exists []. simpl. now rewrite app_nil_r.
  - simpl in H. apply andb_true_iff in H as [He Hevs].
    apply negb_true_iff in He.
    rewrite run_cons. simpl.
    destruct (IH (fst (step e st)) Hevs) as [a2 E2].
    destruct (handle_extends_log e st He) as [a1 E1].
    exists (a1 ++ a2). rewrite E2, step_fst. simpl. rewrite E1.
    now rewrite app_assoc.
Qed.

(** C3.  Handling a [sync-state] message sets the log to the stroke
    sequence of the payload, whatever the log held before and whether or
    not this client has ever asked for the state; nothing is sent. *)
Theorem sync_state_replaces_log (payload : SyncStatePayload.t) (st : Client) :
  strokes (fst (step (RecvSyncState payload) st)) = SyncStatePayload.strokes payload /\
  strokesRef (fst (step (RecvSyncState payload) st)) = SyncStatePayload.strokes payload /\
  hasRequestedState (fst (step (RecvSyncState payload) st)) = hasRequestedState st /\
  snd (step (RecvSyncState payload) st) = [].
Proof. repeat split. Qed.

(** C5.  Over any sequence of events that holds no [sync-state] reception
    (in particular over any sequence of [endDrawing] commits and
    [draw-line] receptions) the log only grows at its end: its length does
    not decrease and every stroke stays at its position. *)
Theorem log_append_only (evs : list Event) (st : Client) :
  forallb (fun e => negb (isRecvSyncState e)) evs = true ->
  (List.length (strokes st) <= List.length (strokes (fst (run evs st))))%nat /\
  (forall i s, nth_error (strokes st) i = Some s ->
               nth_error (strokes (fst (run evs st))) i = Some s).
Proof.
  intro H. destruct (run_extends_log evs st H) as [added E]. rewrite E. split.
  - rewrite length_app. lia.
  - intros i s Hi. rewrite nth_error_app1; [exact Hi|].
    apply nth_error_Some. congruence.
Qed.

Lemma log_append_only_witness :
  let s := Stroke.mk "r" "peer" COLORS.RED WIDTHS.PEN [Point.mk 1 2] in
  let evs := [StartDrawing 10 10 "s"; Draw 20 20 1000; EndDrawing; RecvDrawLine s] in
  let st := fst (session "u" None [RecvDrawLine s]) in
  (List.length (strokes st) <= List.length (strokes (fst (run evs st))))%nat /\
  (forall i s, nth_error (strokes st) i = Some s ->
               nth_error (strokes (fst (run evs st))) i = Some s).
Proof. intros s evs st. apply (log_append_only evs st). reflexivity. Defined.

(** A [sync-state] reception, on the other hand, may shrink the log. *)
Example sync_state_may_shrink :
  let st := fst (session "u" None [StartDrawing 10 10 "s"; EndDrawing]) in
  strokes st <> [] /\
  strokes (fst (step (RecvSyncState (SyncStatePayload.mk [])) st)) = [].
Proof. split; [discriminate | reflexivity]. Qed.

(** ** The drawing state machine *)

(** C6.  With a stroke in progress, [endDrawing] appends that stroke to
    the log, sends it whole as one [draw-line] message and empties the
    slot; and a [draw-line] message is never sent by anything else than an
    [endDrawing] that commits the stroke in progress. *)
Theorem endDrawing_commits_whole_stroke
    (uid : string) (param : option string) (evs : list Event) (s : Stroke.t) :
  currentStroke (fst (session uid param evs)) = Some s ->
  (strokes (fst (step EndDrawing (fst (session uid param evs))))
     = strokes (fst (session uid param evs)) ++ [s] /\
   currentStroke (fst (step EndDrawing (fst (session uid param evs)))) = None /\
   snd (step EndDrawing (fst (session uid param evs))) = [send (draw_line s)]) /\
  (forall e st p, In (send (draw_line p)) (snd (step e st)) ->
                  e = EndDrawing /\ currentStroke st = Some p).
Proof.
  intro Hs. split.
  - destruct (session_settled uid param evs) as (Hc & _ & _).
    rewrite step_fst, step_snd. simpl. unfold endDrawing, sendIfChannel.
    rewrite Hs. destruct (channelRef (fst (session uid param evs))); [|contradiction].
    repeat split.
  - clear. intros e st p. rewrite step_snd.
    destruct e; unfold_handlers; break_ifs; simpl;
      intuition (try discriminate; try congruence).
Qed.

Lemma endDrawing_commits_whole_stroke_witness :
  let evs := [StartDrawing 10 10 "s"; Draw 20 20 1000] in
  let s := Stroke.mk "s" "u" COLORS.BLACK WIDTHS.PEN [Point.mk 10 10; Point.mk 20 20] in
  (strokes (fst (step EndDrawing (fst (session "u" None evs))))
     = strokes (fst (session "u" None evs)) ++ [s] /\
   currentStroke (fst (step EndDrawing (fst (session "u" None evs)))) = None /\
   snd (step EndDrawing (fst (session "u" None evs))) = [send (draw_line s)]) /\
  (forall e st p, In (send (draw_line p)) (snd (step e st)) ->
                  e = EndDrawing /\ currentStroke st = Some p).
Proof.
  intros evs s. apply (endDrawing_commits_whole_stroke "u" None evs s). reflexivity.
Defined.

(** C9.  After [startDrawing x y] the slot holds the new stroke, made of
    the generated identifier, the user's identifier, the selected colour
    and width and the single point; the log is unchanged and nothing is
    sent, and the stroke that was in the slot before plays no part in the
    outcome. *)
Theorem startDrawing_fills_slot (x y : float) (uuid : string) (st : Client) :
  currentStroke (fst (step (StartDrawing x y uuid) st))
    = Some (Stroke.mk uuid (User.id (currentUser st)) (User.color (currentUser st))
              (User.width (currentUser st)) [Point.mk x y]) /\
  strokes (fst (step (StartDrawing x y uuid) st)) = strokes st /\
  snd (step (StartDrawing x y uuid) st) = [] /\
  (forall old, step (StartDrawing x y uuid) (setCurrentStroke old st)
               = step (StartDrawing x y uuid) st).
Proof. repeat split. Qed.

(** C10.  With no stroke in progress, [endDrawing] changes neither the log
    nor the slot and sends nothing, and [draw x y] changes neither the slot
    nor the log. *)
Theorem idle_endDrawing_and_draw_are_noops (st : Client) :
  currentStroke st = None ->
  (strokes (fst (step EndDrawing st)) = strokes st /\
   currentStroke (fst (step EndDrawing st)) = None /\
   snd (step EndDrawing st) = []) /\
  (forall x y now,
     currentStroke (fst (step (Draw x y now) st)) = None /\
     strokes (fst (step (Draw x y now) st)) = strokes st /\
     count isDrawLine (snd (step (Draw x y now) st)) = 0%nat).
Proof.
  intro H. split.
  - rewrite step_fst, step_snd. simpl. unfold endDrawing. rewrite H. repeat split.
  - intros x y now. rewrite step_fst, step_snd. simpl. unfold draw, sendIfChannel.
    rewrite H. break_ifs; repeat split.
Qed.

Lemma idle_endDrawing_and_draw_are_noops_witness :
  let st := fst (session "u" None [StartDrawing 10 10 "s"; EndDrawing]) in
  (strokes (fst (step EndDrawing st)) = strokes st /\
   currentStroke (fst (step EndDrawing st)) = None /\
   snd (step EndDrawing st) = []) /\
  (forall x y now,
     currentStroke (fst (step (Draw x y now) st)) = None /\
     strokes (fst (step (Draw x y now) st)) = strokes st /\
     count isDrawLine (snd (step (Draw x y now) st)) = 0%nat).
Proof.
  intro st. apply (idle_endDrawing_and_draw_are_noops st). reflexivity.
Defined.

(** ** The eraser *)

(** Pointer moves extend the points of the stroke in progress and touch
    neither its other fields nor the log. *)
Lemma run_moves (moves : list Event) (st : Client) (s : Stroke.t) :
  forallb isPointerMove moves = true ->
  currentStroke st = Some s ->
  exists pts,
    currentStroke (fst (run moves st))
      = Some (Stroke.mk (Stroke.id s) (Stroke.userId s) (Stroke.color s)
                (Stroke.width s) (Stroke.points s ++ pts)) /\
    strokes (fst (run moves st)) = strokes st.
Proof.
  revert st s. induction moves as [|e moves IH]; intros st s Hm Hs.
  - exists []. simpl. rewrite app_nil_r. destruct s; auto.
  - simpl in Hm. apply andb_true_iff in Hm as [He Hm].
    rewrite run_cons. cbn [fst].
    destruct e; try discriminate He.
    + destruct (IH (fst (step (Draw x y now) st))
                  (Stroke.mk (Stroke.id s) (Stroke.userId s) (Stroke.color s)
                     (Stroke.width s) (Stroke.points s ++ [Point.mk x y])) Hm)
        as (pts & E1 & E2).
      { rewrite step_fst. simpl. unfold draw. rewrite Hs. break_ifs; reflexivity. }
      exists (Point.mk x y :: pts). rewrite E1, E2. simpl. rewrite <- app_assoc.
      split; [reflexivity|].
      rewrite step_fst. simpl. unfold draw. break_ifs; reflexivity.
    + destruct (IH (fst (step (MoveCursor x y now) st)) s Hm) as (pts & E1 & E2).
      { rewrite step_fst. simpl. unfold moveCursor. break_ifs; exact Hs. }
      exists pts. rewrite E1, E2. split; [reflexivity|].
      rewrite step_fst. simpl. unfold moveCursor. break_ifs; reflexivity.
Qed.

(** C8.  The eraser is one of the toolbar's tools, with the background
    colour [#FFFFFF] and width [20]; a stroke drawn with it is committed as
    an ordinary stroke of that colour and width, appended to the log: every
    prior stroke stays and the length grows by one. *)
Theorem eraser_stroke_is_additive
    (x y : float) (uuid : string) (moves : list Event) (st : Client) :
  forallb isPointerMove moves = true ->
  In eraserTool tools /\
  Tool.color eraserTool = canvasBackground /\
  Tool.width eraserTool = 20%float /\
  exists s,
    strokes (fst (run (strokeGesture eraserTool x y uuid moves) st)) = strokes st ++ [s] /\
    Stroke.color s = canvasBackground /\
    Stroke.width s = 20%float /\
    List.length (strokes (fst (run (strokeGesture eraserTool x y uuid moves) st)))
      = S (List.length (strokes st)).
Proof.
  intro Hm. split; [simpl; tauto|]. split; [reflexivity|]. split; [reflexivity|].
  unfold strokeGesture.
  rewrite run_app, run_app. cbn [fst].
  set (st2 := fst (run [SetTool (Tool.color eraserTool) (Tool.width eraserTool);
                        StartDrawing x y uuid] st)).
  set (s0 := Stroke.mk uuid (User.id (currentUser st)) COLORS.ERASER WIDTHS.ERASER
               [Point.mk x y]).
  assert (H2 : currentStroke st2 = Some s0) by reflexivity.
  assert (L2 : strokes st2 = strokes st) by reflexivity.
  destruct (run_moves moves st2 s0 Hm H2) as (pts & E1 & E2).
  rewrite run_cons. cbn [fst run]. rewrite step_fst. simpl. unfold endDrawing.
  rewrite E1. simpl. rewrite E2, L2.
  eexists. split; [reflexivity|]. repeat split.
  rewrite length_app. simpl. lia.
Qed.

Lemma eraser_stroke_is_additive_witness :
  let moves := handleMouseMove 1 20 20 1000 ++ handleMouseMove 1 30 35 1100 in
  let st := fst (session "u" None [StartDrawing 10 10 "s"; EndDrawing]) in
  In eraserTool tools /\
  Tool.color eraserTool = canvasBackground /\
  Tool.width eraserTool = 20%float /\
  exists s,
    strokes (fst (run (strokeGesture eraserTool 15 15 "e" moves) st)) = strokes st ++ [s] /\
    Stroke.color s = canvasBackground /\
    Stroke.width s = 20%float /\
    List.length (strokes (fst (run (strokeGesture eraserTool 15 15 "e" moves) st)))
      = S (List.length (strokes st)).
Proof.
  intros moves st. apply (eraser_stroke_is_additive 15 15 "e" moves st). reflexivity.
Defined.

(** ** The catch-up handshake *)

(** Host-only response: of three members that joined at t = 1, 2 and 3,
    the one that joined at 1 answers a request of a fourth; the other two
    do not, and nobody answers a request of their own. *)
Example host_only_response :
  let ask := RecvReqState (ReqStatePayload.mk "d") threeMembers in
  let drawn := [StartDrawing 10 10 "s"; EndDrawing] in
  count isSyncState (snd (step ask (fst (session "a" None drawn)))) = 1%nat /\
  snd (step ask (fst (session "b" None drawn))) = [] /\
  snd (step ask (fst (session "c" None drawn))) = [] /\
  snd (step (RecvReqState (ReqStatePayload.mk "a") threeMembers)
         (fst (session "a" None drawn))) = [].
Proof. repeat split; reflexivity. Qed.

Lemma count_app (f : Action -> bool) (a b : list Action) :
  count f (a ++ b) = (count f a + count f b)%nat.
Proof. unfold count. now rewrite filter_app, length_app. Qed.

Lemma step_req_state (e : Event) (st : Client) :
  count isReqState (snd (step e st))
    = (if crowded e && negb (hasRequestedState st) then 1 else 0)%nat /\
  hasRequestedState (fst (step e st)) = hasRequestedState st || crowded e.
Proof.
  rewrite step_snd, step_fst.
  destruct e; unfold_handlers; simpl;
    try (break_ifs; simpl; rewrite ?orb_false_r; split; reflexivity).
  destruct (hasRequestedState st) eqn:Hreq,
    (1 <? List.length (allPresences state))%nat;
    simpl; rewrite ?Hreq; split; reflexivity.
Qed.

Lemma run_req_state (evs : list Event) (st : Client) :
  count isReqState (snd (run evs st))
    = (if existsb crowded evs && negb (hasRequestedState st) then 1 else 0)%nat /\
  hasRequestedState (fst (run evs st)) = hasRequestedState st || existsb crowded evs.
Proof.
  revert st. induction evs as [|e evs IH]; intro st.
  - simpl. rewrite orb_false_r. auto.
  - rewrite run_cons. cbn [fst snd existsb]. rewrite count_app.
    destruct (step_req_state e st) as [C1 H1].
    destruct (IH (fst (step e st))) as [C2 H2].
    rewrite C1, C2, H2, H1.
    destruct (hasRequestedState st), (crowded e), (existsb crowded evs); split; reflexivity.
Qed.

Lemma run_req_state_requester (evs : list Event) (st : Client) (payload : ReqStatePayload.t) :
  In (send (req_state payload)) (snd (run evs st)) ->
  ReqStatePayload.requesterId payload = User.id (currentUser st).
Proof.
  revert st. induction evs as [|e evs IH]; intro st; [intros []|].
  rewrite run_cons. cbn [snd]. rewrite in_app_iff. intros [H|H].
  - rewrite step_snd in H. revert H.
    destruct e; unfold_handlers; break_ifs; simpl;
      intuition (try discriminate; try congruence).
    now inversion H0.
  - apply IH in H. rewrite H, step_fst. apply handle_user_id.
Qed.

(** C2.  In a session in which some presence notification shows more than
    one record, exactly one [req-state] message is sent, whatever the
    number of notifications and whatever else happens; it names this
    client as the requester, and nothing that follows in the session sends
    another. *)
Theorem single_handshake_request
    (uid : string) (param : option string) (evs more : list Event) :
  existsb crowded evs = true ->
  count isReqState (snd (session uid param evs)) = 1%nat /\
  (forall payload, In (send (req_state payload)) (snd (session uid param evs)) ->
                   ReqStatePayload.requesterId payload = uid) /\
  count isReqState (snd (run more (fst (session uid param evs)))) = 0%nat /\
  count isReqState (snd (session uid param (evs ++ more))) = 1%nat.
Proof.
  intro H. unfold session.
  destruct (run_req_state evs (mount param (init uid))) as [C1 H1].
  destruct (run_req_state more (fst (run evs (mount param (init uid))))) as [C2 _].
  rewrite H in C1, H1. simpl in C1, H1. rewrite H1, andb_false_r in C2.
  repeat split.
  - exact C1.
  - intros payload Hin. now apply run_req_state_requester in Hin.
  - exact C2.
  - rewrite run_app. cbn [snd]. rewrite count_app, C1, C2. reflexivity.
Qed.

Lemma single_handshake_request_witness :
  let me := Presence.mk "b" 2 (Some "Bo") in
  let host := Presence.mk "a" 1 (Some "Al") in
  let evs := [PresenceSync [("k2", [me])];
              PresenceSync [("k1", [host]); ("k2", [me])];
              PresenceSync [("k1", [host]); ("k2", [me])]] in
  let more := [RecvDrawLine (Stroke.mk "s" "a" COLORS.RED WIDTHS.PEN []);
               PresenceSync [("k1", [host]); ("k2", [me]); ("k3", [Presence.mk "c" 3 None])]] in
  count isReqState (snd (session "b" None evs)) = 1%nat /\
  (forall payload, In (send (req_state payload)) (snd (session "b" None evs)) ->
                   ReqStatePayload.requesterId payload = "b") /\
  count isReqState (snd (run more (fst (session "b" None evs)))) = 0%nat /\
  count isReqState (snd (session "b" None (evs ++ more))) = 1%nat.
Proof.
  intros me host evs more. apply (single_handshake_request "b" None evs more). reflexivity.
Defined.

(** When the snapshot holds the client's own record and one record per
    user, it shows more than one record exactly when it shows someone
    else. *)
Lemma more_than_self (me : string) (l : list Presence.t) :
  NoDup (map Presence.user_id l) ->
  In me (map Presence.user_id l) ->
  (1 < List.length l)%nat <-> exists p, In p l /\ Presence.user_id p <> me.
Proof.
  intros Hnd Hme. split.
  - destruct l as [|a [|b rest]]; simpl; try lia. intros _.
    destruct (string_dec (Presence.user_id a) me) as [Ea|Na].
    + exists b. split; [tauto|]. intro Eb.
      inversion Hnd as [|? ? Hnotin _]; subst. apply Hnotin. simpl. left. congruence.
    + exists a. tauto.
  - intros (p & Hp & Hne). destruct l as [|a [|b rest]]; simpl in *.
    + contradiction.
    + destruct Hp as [<-|[]]. destruct Hme as [E|[]]. congruence.
    + lia.
Qed.

(** Without such a notification no [req-state] message is sent. *)
Lemma no_request_when_alone (uid : string) (param : option string) (evs : list Event) :
  existsb crowded evs = false ->
  count isReqState (snd (session uid param evs)) = 0%nat.
Proof.
  intro H. destruct (run_req_state evs (mount param (init uid))) as [C _].
  unfold session. now rewrite C, H.
Qed.

(** ** Host election *)

Lemma insertByOnlineAt_perm (p : Presence.t) (l : list Presence.t) :
  Permutation (insertByOnlineAt p l) (p :: l).
Proof.
  induction l as [|q l IH]; simpl; [reflexivity|].
  destruct (Presence.online_at p <=? Presence.online_at q); [reflexivity|].
  rewrite IH. apply perm_swap.
Qed.

Lemma sortByOnlineAt_perm (l : list Presence.t) :
  Permutation (sortByOnlineAt l) l.
Proof.
  induction l as [|p l IH]; simpl; [reflexivity|].
  rewrite insertByOnlineAt_perm. now constructor.
Qed.

Lemma insertByOnlineAt_sorted (p : Presence.t) (l : list Presence.t) :
  StronglySorted olderEq l -> StronglySorted olderEq (insertByOnlineAt p l).
Proof.
  induction 1 as [|q l Hs IH Hq]; simpl.
  - repeat constructor.
  - destruct (Z.leb_spec (Presence.online_at p) (Presence.online_at q)) as [Hle|Hgt].
    + constructor; [now constructor|]. constructor; [exact Hle|].
      eapply Forall_impl; [|exact Hq]. unfold olderEq in *. intros; lia.
    + constructor; [exact IH|].
      eapply Permutation_Forall; [symmetry; apply insertByOnlineAt_perm|].
      constructor; [unfold olderEq; lia | exact Hq].
Qed.

Lemma sortByOnlineAt_sorted (l : list Presence.t) :
  StronglySorted olderEq (sortByOnlineAt l).
Proof.
  induction l as [|p l IH]; simpl; [constructor|].
  now apply insertByOnlineAt_sorted.
Qed.

(** The record at the head of the sorted snapshot is an oldest one. *)
Lemma sorted_head_oldest (l rest : list Presence.t) (p : Presence.t) :
  sortByOnlineAt l = p :: rest -> oldest l p.
Proof.
  intro E. pose proof (sortByOnlineAt_perm l) as P.
  pose proof (sortByOnlineAt_sorted l) as S. rewrite E in P, S.
  split.
  - eapply Permutation_in; [exact P | now left].
  - intros r Hr. apply Permutation_sym in P.
    apply (Permutation_in _ P) in Hr. destruct Hr as [<-|Hr].
    + unfold olderEq; lia.
    + inversion S as [|? ? _ Hall]; subst.
      rewrite Forall_forall in Hall. now apply Hall.
Qed.

Lemma electHost_oldest (l : list Presence.t) :
  l <> [] -> exists h, oldest l h /\ electHost l = Some (Presence.user_id h).
Proof.
  intro Hne. unfold electHost. destruct (sortByOnlineAt l) as [|p rest] eqn:E.
  - pose proof (sortByOnlineAt_perm l) as P. rewrite E in P.
    apply Permutation_nil in P. contradiction.
  - exists p. split; [now apply sorted_head_oldest with rest | reflexivity].
Qed.

Lemma oldest_perm (l l' : list Presence.t) (p : Presence.t) :
  Permutation l l' -> oldest l p -> oldest l' p.
Proof.
  intros P [Hin Hmin]. split.
  - now apply (Permutation_in _ P).
  - intros r Hr. apply Hmin. now apply (Permutation_in _ (Permutation_sym P)).
Qed.

(** C4, as stated, fails: two records that share the smallest join time
    are elected in the order of the input. *)
Lemma electHost_tie_counterexample :
  let l := [Presence.mk "a" 1 None; Presence.mk "b" 1 None] in
  let l' := [Presence.mk "b" 1 None; Presence.mk "a" 1 None] in
  l <> [] /\ Permutation l l' /\
  electHost l = Some "a" /\ electHost l' = Some "b" /\
  electHost l <> electHost l'.
Proof.
  simpl. repeat split; try discriminate. apply perm_swap.
Qed.

(** C4, amended.  For a presence set that is not empty and whose smallest
    join time belongs to one user, the election yields that user for every
    order of the input. *)
Theorem electHost_permutation (l l' : list Presence.t) :
  l <> [] ->
  uniqueOldest l ->
  Permutation l l' ->
  exists h, oldest l h /\
            electHost l = Some (Presence.user_id h) /\
            electHost l' = Some (Presence.user_id h).
Proof.
  intros Hne Hu P.
  destruct (electHost_oldest l Hne) as (h & Hh & E).
  assert (Hne' : l' <> []).
  { intro E'. subst l'. apply Permutation_sym, Permutation_nil in P. contradiction. }
  destruct (electHost_oldest l' Hne') as (h' & Hh' & E').
  exists h. repeat split; try apply Hh; [exact E|].
  rewrite E'. f_equal. apply Hu; [|exact Hh].
  apply (oldest_perm l' l); [now apply Permutation_sym | exact Hh'].
Qed.

Lemma electHost_permutation_witness :
  let a := Presence.mk "a" 1 (Some "Al") in
  let b := Presence.mk "b" 2 None in
  let c := Presence.mk "c" 2 (Some "Cy") in
  exists h, oldest [c; a; b] h /\
            electHost [c; a; b] = Some (Presence.user_id h) /\
            electHost [b; c; a] = Some (Presence.user_id h).
Proof.
  intros a b c. apply (electHost_permutation [c; a; b] [b; c; a]).
  - discriminate.
  - intros p q [Hp Mp] [Hq Mq].
    assert (Ha : In a [c; a; b]) by (simpl; tauto).
    pose proof (Mp a Ha) as Lp. pose proof (Mq a Ha) as Lq.
    unfold olderEq in Lp, Lq.
    simpl in Hp, Hq.
    destruct Hp as [<-|[<-|[<-|[]]]]; simpl in Lp; try lia;
    destruct Hq as [<-|[<-|[<-|[]]]]; simpl in Lq; try lia; reflexivity.
  - apply Permutation_sym. apply (Permutation_cons_app [c; a] [] b). reflexivity.
Defined.

(** ** The cursor throttle *)

Lemma step_pointer_move (lo hi : Z) (e : Event) (st : Client) :
  within lo hi e = true ->
  exists now,
    lo <= now <= hi /\
    ((now - lastCursorUpdate st > 50 /\
      lastCursorUpdate (fst (step e st)) = now /\
      cursorMessages (snd (step e st)) <= 1) \/
     (now - lastCursorUpdate st <= 50 /\
      lastCursorUpdate (fst (step e st)) = lastCursorUpdate st /\
      cursorMessages (snd (step e st)) = 0)).
Proof.
  intro H. rewrite step_fst, step_snd.
  destruct e; try discriminate H; simpl in H;
    apply andb_true_iff in H as [H1 H2];
    apply Z.leb_le in H1; apply Z.leb_le in H2;
    exists now; (split; [lia|]);
    unfold_handlers; simpl;
    destruct (Z.gtb_spec (now - lastCursorUpdate st) 50);
    [left|right|left|right]; repeat split; try lia;
    unfold cursorMessages, count; destruct (channelRef st); simpl; lia.
Qed.

(** Once a message has gone out at time [last], later moves up to time
    [hi] send at most one message per 51 milliseconds that remain. *)
Lemma throttle_after (lo hi : Z) (evs : list Event) (st : Client) :
  forallb (within lo hi) evs = true ->
  51 * cursorMessages (snd (run evs st)) <= Z.max 0 (hi - lastCursorUpdate st).
Proof.
  revert st. induction evs as [|e evs IH]; intros st H.
  - simpl. lia.
  - simpl in H. apply andb_true_iff in H as [He Hevs].
    rewrite run_cons. cbn [snd]. unfold cursorMessages in *. rewrite count_app.
    specialize (IH (fst (step e st)) Hevs).
    destruct (step_pointer_move lo hi e st He) as (now & Hnow & [(G & L & C)|(G & L & C)]);
      unfold cursorMessages in C; rewrite L in IH; lia.
Qed.

Lemma throttle_window (lo hi : Z) (evs : list Event) (st : Client) :
  lo <= hi ->
  forallb (within lo hi) evs = true ->
  51 * cursorMessages (snd (run evs st)) <= hi - lo + 51.
Proof.
  intro Hlh. revert st. induction evs as [|e evs IH]; intros st H.
  - simpl. lia.
  - simpl in H. apply andb_true_iff in H as [He Hevs].
    rewrite run_cons. cbn [snd]. unfold cursorMessages in *. rewrite count_app.
    specialize (IH (fst (step e st)) Hevs).
    pose proof (throttle_after lo hi evs (fst (step e st)) Hevs) as A.
    unfold cursorMessages in A.
    destruct (step_pointer_move lo hi e st He) as (now & Hnow & [(G & L & C)|(G & L & C)]);
      unfold cursorMessages in C; rewrite L in A; lia.
Qed.

Lemma pointerMovesEvery_within (dt lo hi t : Z) (moves : list (Z * Point.t)) :
  0 <= dt -> lo <= t ->
  t + dt * (Z.of_nat (List.length moves) - 1) <= hi ->
  forallb (within lo hi) (pointerMovesEvery dt t moves) = true.
Proof.
  intros Hdt. revert t. induction moves as [|[buttons p] rest IH]; intros t Hlo Hhi.
  - reflexivity.
  - cbn [pointerMovesEvery]. rewrite forallb_app. apply andb_true_iff. split.
    + assert (Ht : (lo <=? t) && (t <=? hi) = true).
      { apply andb_true_iff. split; apply Z.leb_le; [lia|].
        cbn [List.length] in Hhi. nia. }
      unfold handleMouseMove. destruct (buttons =? 1); simpl; rewrite Ht; reflexivity.
    + apply IH; [lia|]. cbn [List.length] in Hhi. nia.
Qed.

(** C7, as stated, fails: a move exactly 50ms after the last broadcast
    sends nothing. *)
Lemma cursor_throttle_counterexample :
  let st := fst (session "u" None [MoveCursor 1 1 1000]) in
  lastCursorUpdate st = 1000 /\
  1050 - lastCursorUpdate st >= 50 /\
  snd (step (MoveCursor 2 2 1050) st) = [] /\
  snd (step (Draw 2 2 1050) st) = [].
Proof. simpl. repeat split; lia. Qed.

(** C7, amended.  In a session, a pointer-move callback ([moveCursor], and
    [draw] alike) sends one [cursor-move] message when more than 50ms have
    passed since the recorded time of the last broadcast, and then records
    its own time; otherwise it sends nothing and [moveCursor] leaves the
    state as it was.  Pointer moves 10ms apart over 200ms (21 of them at
    most) send no more than 5 such messages. *)
Theorem cursor_throttle
    (uid : string) (param : option string) (evs : list Event)
    (x y : float) (now t0 : Z) (moves : list (Z * Point.t)) :
  (List.length moves <= 21)%nat ->
  (now - lastCursorUpdate (fst (session uid param evs)) > 50 ->
   forall e, e = MoveCursor x y now \/ e = Draw x y now ->
     snd (step e (fst (session uid param evs)))
       = [send (cursor_move
                  (UserCursor.mk uid x y
                     (User.name (currentUser (fst (session uid param evs))))))] /\
     lastCursorUpdate (fst (step e (fst (session uid param evs)))) = now) /\
  (now - lastCursorUpdate (fst (session uid param evs)) <= 50 ->
   (forall e, e = MoveCursor x y now \/ e = Draw x y now ->
      snd (step e (fst (session uid param evs))) = [] /\
      lastCursorUpdate (fst (step e (fst (session uid param evs))))
        = lastCursorUpdate (fst (session uid param evs))) /\
   fst (step (MoveCursor x y now) (fst (session uid param evs)))
     = fst (session uid param evs)) /\
  cursorMessages (snd (run (pointerMovesEvery 10 t0 moves) (fst (session uid param evs)))) <= 5.
Proof.
  intro Hlen.
  destruct (session_settled uid param evs) as (Hc & Href & Hid).
  set (st := fst (session uid param evs)) in *.
  split; [|split].
  - intros Hgt e [-> | ->]; rewrite step_fst, step_snd; unfold_handlers; simpl;
      destruct (Z.gtb_spec (now - lastCursorUpdate st) 50); try lia;
      destruct (channelRef st); try contradiction; rewrite Hid; split; reflexivity.
  - intros Hle. split.
    + intros e [-> | ->]; rewrite step_fst, step_snd; unfold_handlers; simpl;
        destruct (Z.gtb_spec (now - lastCursorUpdate st) 50); try lia;
        split; reflexivity.
    + rewrite step_fst. unfold_handlers. simpl.
      destruct (Z.gtb_spec (now - lastCursorUpdate st) 50); try lia.
      simpl. destruct st; simpl in *. unfold syncRef, setStrokesRef. simpl.
      now rewrite Href.
  - assert (W : forallb (within t0 (t0 + 200)) (pointerMovesEvery 10 t0 moves) = true).
    { apply pointerMovesEvery_within; lia. }
    pose proof (throttle_window t0 (t0 + 200) _ st ltac:(lia) W). lia.
Qed.

Lemma cursor_throttle_witness :
  let moves := map (fun k => (Z.of_nat k mod 2, Point.mk 3 4)) (seq 0 21) in
  let evs := [MoveCursor 1 1 1000] in
  (1060 - lastCursorUpdate (fst (session "u" None evs)) > 50 ->
   forall e, e = MoveCursor 2 3 1060 \/ e = Draw 2 3 1060 ->
     snd (step e (fst (session "u" None evs)))
       = [send (cursor_move
                  (UserCursor.mk "u" 2 3
                     (User.name (currentUser (fst (session "u" None evs))))))] /\
     lastCursorUpdate (fst (step e (fst (session "u" None evs)))) = 1060) /\
  (1060 - lastCursorUpdate (fst (session "u" None evs)) <= 50 ->
   (forall e, e = MoveCursor 2 3 1060 \/ e = Draw 2 3 1060 ->
      snd (step e (fst (session "u" None evs))) = [] /\
      lastCursorUpdate (fst (step e (fst (session "u" None evs))))
        = lastCursorUpdate (fst (session "u" None evs))) /\
   fst (step (MoveCursor 2 3 1060) (fst (session "u" None evs)))
     = fst (session "u" None evs)) /\
  cursorMessages (snd (run (pointerMovesEvery 10 5000 moves) (fst (session "u" None evs)))) <= 5.
Proof.
  intros moves evs.
  apply (cursor_throttle "u" None evs 2 3 1060 5000 moves). simpl. lia.
Defined.

(** The bound is met with room to spare: 21 moves 10ms apart send 4
    messages, at 0, 60, 120 and 180ms. *)
Example burst_sends_four :
  cursorMessages
    (snd (run (pointerMovesEvery 10 5000
                 (map (fun k => (1, Point.mk 3 4)) (seq 0 21)))
            (fst (session "u" None [])))) = 4.
Proof. reflexivity. Qed.

(** ** Peer cursors *)

Lemma handle_peers (e : Event) (st : Client) :
  peers (fst (handle e st)) =
  match e with
  | RecvCursorMove payload =>
      filter (fun p => negb (String.eqb (UserCursor.id p) (UserCursor.id payload)))
        (peers st) ++ [payload]
  | _ => peers st
  end.
Proof. destruct e; unfold_handlers; break_ifs; reflexivity. Qed.

Lemma findPeer_upsert (i : string) (c : UserCursor.t) (l : list UserCursor.t) :
  findPeer i
    (filter (fun p => negb (String.eqb (UserCursor.id p) (UserCursor.id c))) l ++ [c])
  = if String.eqb i (UserCursor.id c) then Some c else findPeer i l.
Proof.
  unfold findPeer. induction l as [|a l IH]; simpl.
  - rewrite (String.eqb_sym (UserCursor.id c) i).
    now destruct (String.eqb i (UserCursor.id c)).
  - destruct (String.eqb_spec (UserCursor.id a) (UserCursor.id c)) as [Eac|Nac]; simpl.
    + rewrite IH. destruct (String.eqb_spec i (UserCursor.id c)) as [Eic|Nic]; [reflexivity|].
      destruct (String.eqb_spec (UserCursor.id a) i); [congruence | reflexivity].
    + destruct (String.eqb_spec (UserCursor.id a) i) as [Eai|Nai].
      * destruct (String.eqb_spec i (UserCursor.id c)); [congruence | reflexivity].
      * exact IH.
Qed.

(** X1.  Receiving a [cursor-move] records the cursor as the one kept for
    its sender and leaves the cursor kept for every other peer as it
    was. *)
Theorem cursor_move_last_write_wins (payload : UserCursor.t) (st : Client) (i : string) :
  findPeer i (peers (fst (step (RecvCursorMove payload) st)))
  = if String.eqb i (UserCursor.id payload) then Some payload
    else findPeer i (peers st).
Proof.
  rewrite step_fst.
  change (peers (syncRef (fst (handle (RecvCursorMove payload) st))))
    with (peers (fst (handle (RecvCursorMove payload) st))).
  rewrite handle_peers. apply findPeer_upsert.
Qed.

Lemma upsert_NoDup (c : UserCursor.t) (l : list UserCursor.t) :
  NoDup (map UserCursor.id l) ->
  NoDup (map UserCursor.id
           (filter (fun p => negb (String.eqb (UserCursor.id p) (UserCursor.id c))) l
            ++ [c])).
Proof.
  induction l as [|a l IH]; simpl; intro H.
  - constructor; [intros [] | constructor].
  - inversion H as [|? ? Hnotin Hl]; subst.
    destruct (String.eqb_spec (UserCursor.id a) (UserCursor.id c)) as [E|N]; simpl.
    + now apply IH.
    + constructor; [|now apply IH].
      rewrite map_app, in_app_iff. intros [Hin|[Hin|[]]].
      * apply Hnotin. apply in_map_iff in Hin as (p & Ep & Hp).
        apply filter_In in Hp as [Hp _]. apply in_map_iff. now exists p.
      * congruence.
Qed.

Lemma run_peers_NoDup (evs : list Event) (st : Client) :
  NoDup (map UserCursor.id (peers st)) ->
  NoDup (map UserCursor.id (peers (fst (run evs st)))).
Proof.
  revert st. induction evs as [|e evs IH]; intros st H; [exact H|].
  rewrite run_cons. cbn [fst]. apply IH. rewrite step_fst.
  change (peers (syncRef (fst (handle e st)))) with (peers (fst (handle e st))).
  rewrite handle_peers. destruct e; try exact H. now apply upsert_NoDup.
Qed.

(** X2.  At every point of a session the list of peer cursors holds at
    most one cursor per peer identifier. *)
Theorem peers_one_cursor_per_id (uid : string) (param : option string) (evs : list Event) :
  NoDup (map UserCursor.id (peers (fst (session uid param evs)))).
Proof. apply run_peers_NoDup. constructor. Qed.

(** ** More on the cursor throttle *)

Lemma handle_lastCursorUpdate (e : Event) (st : Client) :
  lastCursorUpdate st <= lastCursorUpdate (fst (handle e st)).
Proof.
  destruct e; unfold_handlers; simpl; break_ifs; simpl; try lia;
    match goal with H : (_ >? _) = true |- _ => apply Z.gtb_lt in H; simpl in H; lia end.
Qed.

(** X3.  The recorded time of the last cursor broadcast never goes back,
    whatever the events and whatever the clock readings they carry. *)
Theorem lastCursorUpdate_monotone (evs : list Event) (st : Client) :
  lastCursorUpdate st <= lastCursorUpdate (fst (run evs st)).
Proof.
  revert st. induction evs as [|e evs IH]; intro st; [simpl; lia|].
  rewrite run_cons. cbn [fst].
  specialize (IH (fst (step e st))). rewrite step_fst in *.
  pose proof (handle_lastCursorUpdate e st).
  change (lastCursorUpdate (syncRef (fst (handle e st))))
    with (lastCursorUpdate (fst (handle e st))) in IH.
  lia.
Qed.

(** X4.  A pointer move with the button held calls [draw] and then
    [moveCursor]; when the second clock reading is no more than 50ms after
    the first, the two calls send one [cursor-move] message at most. *)
Theorem held_move_sends_once (x y : float) (n1 n2 : Z) (st : Client) :
  n2 - n1 <= 50 ->
  cursorMessages (snd (run [Draw x y n1; MoveCursor x y n2] st)) <= 1.
Proof.
  intro H. rewrite !run_cons. cbn [fst snd run]. rewrite app_nil_r.
  unfold cursorMessages. rewrite count_app, Nat2Z.inj_add.
  assert (W1 : within n1 n1 (Draw x y n1) = true)
    by (simpl; rewrite Z.leb_refl; reflexivity).
  assert (W2 : within n2 n2 (MoveCursor x y n2) = true)
    by (simpl; rewrite Z.leb_refl; reflexivity).
  destruct (step_pointer_move n1 n1 _ st W1) as (t1 & Ht1 & [(G1 & L1 & C1)|(G1 & L1 & C1)]);
    destruct (step_pointer_move n2 n2 _ (fst (step (Draw x y n1) st)) W2)
      as (t2 & Ht2 & [(G2 & L2 & C2)|(G2 & L2 & C2)]);
    unfold cursorMessages in *; rewrite L1 in *; lia.
Qed.

Lemma held_move_sends_once_witness :
  cursorMessages
    (snd (run [Draw 5 6 2000; MoveCursor 5 6 2001] (fst (session "u" None [])))) <= 1.
Proof.
  apply (held_move_sends_once 5 6 2000 2001 (fst (session "u" None []))). lia.
Defined.

(** ** The stroke in progress *)

Lemma extendStroke_nil (s : Stroke.t) : extendStroke [] s = s.
Proof. destruct s. unfold extendStroke. simpl. now rewrite app_nil_r. Qed.

Lemma extendStroke_app (a b : list Point.t) (s : Stroke.t) :
  extendStroke (a ++ b) s = extendStroke b (extendStroke a s).
Proof. unfold extendStroke. simpl. now rewrite app_assoc. Qed.

Lemma handle_slot (e : Event) (st : Client) :
  isStartOrEnd e = false ->
  currentStroke (fst (handle e st))
  = option_map (extendStroke (drawnPoints [e])) (currentStroke st).
Proof.
  intro H. destruct e; try discriminate H; unfold_handlers; simpl;
    break_ifs; simpl;
    try reflexivity;
    destruct (currentStroke st) as [s0|]; cbn [option_map];
    rewrite ?extendStroke_nil; reflexivity.
Qed.

Lemma run_slot (evs : list Event) (st : Client) :
  forallb (fun e => negb (isStartOrEnd e)) evs = true ->
  currentStroke (fst (run evs st))
  = option_map (extendStroke (drawnPoints evs)) (currentStroke st).
Proof.
  revert st. induction evs as [|e evs IH]; intros st H.
  - simpl. destruct (currentStroke st); simpl; now rewrite ?extendStroke_nil.
  - simpl in H. apply andb_true_iff in H as [He Hevs]. apply negb_true_iff in He.
    rewrite run_cons. cbn [fst]. rewrite (IH _ Hevs), step_fst.
    change (currentStroke (syncRef (fst (handle e st))))
      with (currentStroke (fst (handle e st))).
    rewrite (handle_slot e st He).
    replace (drawnPoints (e :: evs)) with (drawnPoints [e] ++ drawnPoints evs)
      by (unfold drawnPoints; simpl; now rewrite app_nil_r).
    destruct (currentStroke st); cbn [option_map]; [|reflexivity].
    now rewrite extendStroke_app.
Qed.

(** X5.  Between a pointer-down and the next pointer-up or pointer-down,
    only [draw] touches the stroke in progress, and it only adds its point
    at the end: whatever else happens (messages received, presence
    notifications, tool or name changes), the slot holds the stroke it
    held, extended by the points drawn, in order. *)
Theorem slot_changes_only_by_draw (evs : list Event) (st : Client) :
  forallb (fun e => negb (isStartOrEnd e)) evs = true ->
  currentStroke (fst (run evs st))
  = option_map (extendStroke (drawnPoints evs)) (currentStroke st).
Proof. apply run_slot. Qed.

Lemma slot_changes_only_by_draw_witness :
  let evs := [Draw 20 20 1000; SetTool COLORS.RED WIDTHS.PEN;
              RecvSyncState (SyncStatePayload.mk []); Draw 30 30 1100] in
  let st := fst (session "u" None [StartDrawing 10 10 "s"]) in
  currentStroke (fst (run evs st))
  = option_map (extendStroke (drawnPoints evs)) (currentStroke st).
Proof. intros evs st. apply (slot_changes_only_by_draw evs st). reflexivity. Defined.

(** X6.  A gesture in a session (pointer-down at [(x, y)], any events but
    another pointer-down or a pointer-up, then pointer-up) ends with one
    [draw-line] message and one stroke appended to the log as it then is;
    both are the stroke with the identifier generated at pointer-down, the
    user's identifier, the colour and width selected at pointer-down, and
    the points [(x, y)] followed by the points drawn. *)
Theorem gesture_commits_drawn_points
    (uid : string) (param : option string) (before evs : list Event)
    (x y : float) (uuid : string) :
  forallb (fun e => negb (isStartOrEnd e)) evs = true ->
  let st := fst (session uid param before) in
  let st1 := fst (run (StartDrawing x y uuid :: evs) st) in
  let s := Stroke.mk uuid uid (User.color (currentUser st)) (User.width (currentUser st))
             (Point.mk x y :: drawnPoints evs) in
  strokes (fst (step EndDrawing st1)) = strokes st1 ++ [s] /\
  snd (step EndDrawing st1) = [send (draw_line s)] /\
  currentStroke (fst (step EndDrawing st1)) = None.
Proof.
  intros H st st1 s.
  destruct (session_settled uid param before) as (Hc & _ & Hid). fold st in Hc, Hid.
  assert (Hs : currentStroke st1 = Some s).
  { unfold st1. rewrite run_cons. cbn [fst]. rewrite (run_slot evs _ H).
    rewrite step_fst. simpl. unfold extendStroke. simpl. now rewrite Hid. }
  assert (Hc1 : channelRef st1 <> None).
  { apply (run_settled uid (StartDrawing x y uuid :: evs) st).
    apply session_settled. }
  rewrite step_fst, step_snd. simpl. unfold endDrawing, sendIfChannel. rewrite Hs.
  destruct (channelRef st1); [|contradiction]. repeat split.
Qed.

Lemma gesture_commits_drawn_points_witness :
  let evs := [MoveCursor 10 10 900; Draw 20 20 1000; SetTool COLORS.RED WIDTHS.PEN;
              RecvDrawLine (Stroke.mk "r" "peer" COLORS.BLUE WIDTHS.PEN []);
              Draw 30 30 1100] in
  let st := fst (session "u" None [SetTool COLORS.GREEN WIDTHS.PEN]) in
  let st1 := fst (run (StartDrawing 10 10 "s" :: evs) st) in
  let s := Stroke.mk "s" "u" (User.color (currentUser st)) (User.width (currentUser st))
             (Point.mk 10 10 :: drawnPoints evs) in
  strokes (fst (step EndDrawing st1)) = strokes st1 ++ [s] /\
  snd (step EndDrawing st1) = [send (draw_line s)] /\
  currentStroke (fst (step EndDrawing st1)) = None.
Proof.
  intro evs.
  apply (gesture_commits_drawn_points "u" None [SetTool COLORS.GREEN WIDTHS.PEN] evs
           10 10 "s").
  reflexivity.
Defined.

(** ** Who sent what *)

Lemma handle_owned (uid : string) (e : Event) (st : Client) :
  owned uid st ->
  owned uid (fst (handle e st)) /\
  forall a u, In a (snd (handle e st)) -> senderOf a = Some u -> u = uid.
Proof.
  intros [Hid Hslot]. split; [split|].
  - now rewrite handle_user_id.
  - destruct e; unfold_handlers; simpl; break_ifs; simpl; intros s0 Hs0;
      try (apply Hslot; assumption); try discriminate Hs0;
      try (inversion Hs0; subst; simpl; auto).
  - destruct e; unfold_handlers; simpl; break_ifs; simpl; intros a u Ha Hu;
      repeat match goal with
        | H : _ \/ _ |- _ => destruct H
        | H : False |- _ => destruct H
        end; subst; simpl in Hu; try discriminate Hu;
      inversion Hu; subst; auto.
Qed.

Lemma run_owned (uid : string) (evs : list Event) (st : Client) :
  owned uid st ->
  forall a u, In a (snd (run evs st)) -> senderOf a = Some u -> u = uid.
Proof.
  revert st. induction evs as [|e evs IH]; intros st H a u Ha Hu; [destruct Ha|].
  rewrite run_cons in Ha. cbn [snd] in Ha. apply in_app_iff in Ha.
  destruct (handle_owned uid e st H) as [H1 Hacts]. destruct Ha as [Ha|Ha].
  - rewrite step_snd in Ha. now apply (Hacts a u).
  - apply (IH (fst (step e st))) with a; auto.
    rewrite step_fst. destruct H1 as [A B]. split; [exact A | exact B].
Qed.

(** X7.  Everything a session sends under a sender's name carries the
    session's own identifier: the [id] of a [cursor-move], the [userId] of
    a [draw-line], the [requesterId] of a [req-state] and the [user_id] of
    a presence track. *)
Theorem session_sends_under_own_id
    (uid : string) (param : option string) (evs : list Event) :
  Forall (fun a => senderOf a = None \/ senderOf a = Some uid)
    (snd (session uid param evs)).
Proof.
  apply Forall_forall. intros a Ha.
  destruct (senderOf a) as [u|] eqn:Hu; [right | now left].
  f_equal. apply (run_owned uid evs (mount param (init uid))) with a; auto.
  split; [reflexivity | discriminate].
Qed.

(** ** Accounting for the log *)

Lemma handle_log_length (e : Event) (st : Client) :
  channelRef st <> None ->
  isRecvSyncState e = false ->
  List.length (strokes (fst (handle e st)))
  = (List.length (strokes st) + count isDrawLine (snd (handle e st))
     + (if isRecvDrawLine e then 1 else 0))%nat.
Proof.
  intros Hc He. destruct e; try discriminate He; unfold_handlers; simpl;
    break_ifs; unfold count; simpl; rewrite ?length_app; simpl; try lia; congruence.
Qed.

Lemma run_log_length (evs : list Event) (st : Client) :
  channelRef st <> None ->
  forallb (fun e => negb (isRecvSyncState e)) evs = true ->
  List.length (strokes (fst (run evs st)))
  = (List.length (strokes st) + count isDrawLine (snd (run evs st))
     + List.length (filter isRecvDrawLine evs))%nat.
Proof.
  revert st. induction evs as [|e evs IH]; intros st Hc H.
  - simpl. unfold count. simpl. lia.
  - simpl in H. apply andb_true_iff in H as [He Hevs]. apply negb_true_iff in He.
    rewrite run_cons. cbn [fst snd]. rewrite count_app, IH; auto.
    + rewrite step_fst, step_snd.
      change (strokes (syncRef (fst (handle e st)))) with (strokes (fst (handle e st))).
      rewrite (handle_log_length e st Hc He). simpl.
      destruct (isRecvDrawLine e); simpl; lia.
    + rewrite step_fst.
      change (channelRef (syncRef (fst (handle e st)))) with (channelRef (fst (handle e st))).
      now rewrite handle_channelRef.
Qed.

(** X8.  In a session that receives no [sync-state], the log holds as
    many strokes as [draw-line] messages were sent and received
    together. *)
Theorem log_counts_sent_and_received
    (uid : string) (param : option string) (evs : list Event) :
  forallb (fun e => negb (isRecvSyncState e)) evs = true ->
  List.length (strokes (fst (session uid param evs)))
  = (count isDrawLine (snd (session uid param evs))
     + List.length (filter isRecvDrawLine evs))%nat.
Proof.
  intro H. unfold session. rewrite run_log_length; auto. discriminate.
Qed.

Lemma log_counts_sent_and_received_witness :
  let evs := [StartDrawing 1 1 "s"; Draw 2 2 1000; EndDrawing;
              RecvDrawLine (Stroke.mk "r" "peer" COLORS.BLUE WIDTHS.PEN []);
              EndDrawing; StartDrawing 3 3 "t"; StartDrawing 4 4 "v"; EndDrawing] in
  List.length (strokes (fst (session "u" None evs)))
  = (count isDrawLine (snd (session "u" None evs))
     + List.length (filter isRecvDrawLine evs))%nat.
Proof. intro evs. apply (log_counts_sent_and_received "u" None evs). reflexivity. Defined.

(** ** Answers to [req-state] *)

Lemma handle_sync_state_count (e : Event) (st : Client) :
  (count isSyncState (snd (handle e st)) <= (if isRecvReqState e then 1 else 0))%nat.
Proof.
  destruct e; unfold_handlers; simpl; break_ifs; unfold count; simpl; lia.
Qed.

(** X9.  A client sends [sync-state] only in answer to a [req-state]: over
    any events, from any state, the [sync-state] messages sent are no more
    than the [req-state] messages received. *)
Theorem sync_state_only_in_answer (evs : list Event) (st : Client) :
  (count isSyncState (snd (run evs st)) <= List.length (filter isRecvReqState evs))%nat.
Proof.
  revert st. induction evs as [|e evs IH]; intro st; [unfold count; simpl; lia|].
  rewrite run_cons. cbn [snd]. rewrite count_app, step_snd.
  pose proof (handle_sync_state_count e st). specialize (IH (fst (step e st))).
  simpl. destruct (isRecvReqState e); simpl; lia.
Qed.

(** X11.  Two clients with the same log still have the same log after one
    of them, in a session, runs any callback and the other receives what
    that callback broadcast. *)
Theorem callback_keeps_logs_equal
    (uid : string) (param : option string) (evs : list Event)
    (e : Event) (state : PresenceState) (other : Client) :
  isCallback e = true ->
  strokes other = strokes (fst (session uid param evs)) ->
  strokes (fst (run (deliver state (snd (step e (fst (session uid param evs))))) other))
  = strokes (fst (step e (fst (session uid param evs)))).
Proof.
  intros He Heq.
  destruct (session_settled uid param evs) as (Hc & _ & _).
  rewrite step_snd, step_fst.
  destruct e; try discriminate He; unfold_handlers; simpl;
    break_ifs; simpl; congruence.
Qed.

Lemma callback_keeps_logs_equal_witness :
  let evs := [StartDrawing 0 0 "S1"; Draw 10 10 1000] in
  let other := fst (session "b" None []) in
  strokes (fst (run (deliver [] (snd (step EndDrawing (fst (session "a" None evs))))) other))
  = strokes (fst (step EndDrawing (fst (session "a" None evs)))).
Proof.
  intros evs other.
  apply (callback_keeps_logs_equal "a" None evs EndDrawing [] other); reflexivity.
Defined.

(** ** What the canvas paints *)

Lemma paint_commit (log : list Stroke.t) (s : Stroke.t) :
  paint (log ++ [s]) None = paint log (Some s).
Proof.
  unfold paint. rewrite flat_map_app. simpl. now rewrite !app_nil_r.
Qed.

(** X12.  A pointer-up does not change what the canvas paints: the frame
    of the state after [endDrawing] is the frame of the state before it,
    with or without a stroke in progress. *)
Theorem endDrawing_keeps_frame (st : Client) :
  frame (fst (step EndDrawing st)) = frame st.
Proof.
  rewrite step_fst. unfold frame. simpl. unfold endDrawing.
  destruct (currentStroke st) as [s|]; simpl; [apply paint_commit | reflexivity].
Qed.

(** X13.  [drawStroke] makes no call for a stroke without points and for
    no other stroke; for a stroke with points it moves to the first point
    once and draws one line to each of the others. *)
Theorem drawStroke_path (s : Stroke.t) :
  (drawStroke s = [] <-> Stroke.points s = []) /\
  List.length (filter isLineTo (drawStroke s)) = pred (List.length (Stroke.points s)) /\
  List.length (filter isMoveTo (drawStroke s))
  = (if Nat.eqb (List.length (Stroke.points s)) 0 then 0 else 1)%nat.
Proof.
  unfold drawStroke. destruct (Stroke.points s) as [|p0 ps]; simpl.
  - repeat split; auto.
  - split; [split; discriminate|].
    rewrite !filter_app. simpl. rewrite !length_app. simpl.
    assert (L : forall l : list Point.t,
               filter isLineTo (map (fun p => Ctx.lineTo (Point.x p) (Point.y p)) l)
               = map (fun p => Ctx.lineTo (Point.x p) (Point.y p)) l)
      by (induction l; simpl; congruence).
    assert (M : forall l : list Point.t,
               filter isMoveTo (map (fun p => Ctx.lineTo (Point.x p) (Point.y p)) l) = [])
      by (induction l; simpl; congruence).
    rewrite L, M, length_map. simpl. split; lia.
Qed.

(** ** The toolbar and the user list *)

(** X14.  After a click on a button of the toolbar, that button is the
    one highlighted and no other is. *)
Theorem clicked_tool_is_the_selected_one (t : Tool.t) (st : Client) :
  In t tools ->
  filter (selected (currentUser (fst (step (clickTool t) st)))) tools = [t].
Proof.
  intro H. rewrite step_fst. simpl in H.
  repeat (destruct H as [<-|H]; [reflexivity|]). destruct H.
Qed.

Lemma clicked_tool_is_the_selected_one_witness :
  filter (selected (currentUser (fst (step (clickTool eraserTool)
                                       (fst (session "u" None []))))))
    tools = [eraserTool].
Proof.
  apply (clicked_tool_is_the_selected_one eraserTool (fst (session "u" None []))).
  simpl. tauto.
Defined.


(** X16.  Setting the display name tracks the presence again only when
    the name changes: in a session, a second [setDisplayName] with the
    same name sends nothing, and the first sends at most one track. *)
Theorem same_name_is_tracked_once
    (uid : string) (param : option string) (evs : list Event) (name : string) (t1 t2 : Z) :
  snd (step (SetDisplayName name t2)
         (fst (step (SetDisplayName name t1) (fst (session uid param evs))))) = [] /\
  (List.length (snd (step (SetDisplayName name t1) (fst (session uid param evs)))) <= 1)%nat.
Proof.
  rewrite !step_snd, step_fst. simpl handle.
  assert (N : forall now st,
             User.name (currentUser (fst (setDisplayName name now st))) = name).
  { intros. unfold setDisplayName. break_ifs; reflexivity. }
  split.
  - unfold setDisplayName at 1.
    change (currentUser (syncRef ?s)) with (currentUser s).
    now rewrite N, String.eqb_refl.
  - unfold setDisplayName. break_ifs; simpl; lia.
Qed.

(** ** One host per snapshot *)


(** ** The rate of cursor broadcasts *)

(** X18.  However many pointer-move callbacks run within a span of one
    second, and whatever the state they start from, they send no more than
    20 [cursor-move] messages. *)
Theorem twenty_cursor_moves_per_second (t : Z) (evs : list Event) (st : Client) :
  forallb (within t (t + 1000)) evs = true ->
  cursorMessages (snd (run evs st)) <= 20.
Proof.
  intro H. pose proof (throttle_window t (t + 1000) evs st ltac:(lia) H). lia.
Qed.

Lemma twenty_cursor_moves_per_second_witness :
  cursorMessages
    (snd (run (pointerMovesEvery 1 7000 (map (fun k => (1, Point.mk 3 4)) (seq 0 1001)))
            (fst (session "u" None [])))) <= 20.
Proof.
  apply (twenty_cursor_moves_per_second 7000). apply pointerMovesEvery_within.
  - lia.
  - lia.
  - rewrite length_map, length_seq. simpl. lia.
Defined.

(** ** Handlers and effects, tick by tick *)

Lemma play_cons (t : Tick) (ts : list Tick) (st : Client) :
  play (t :: ts) st =
  (fst (play ts (fst (tick t st))), snd (tick t st) ++ snd (play ts (fst (tick t st)))).
Proof.
  simpl. destruct (tick t st) as [st1 a1]. simpl.
  destruct (play ts st1); reflexivity.
Qed.

Lemma play_app (ts1 ts2 : list Tick) (st : Client) :
  play (ts1 ++ ts2) st =
  (fst (play ts2 (fst (play ts1 st))),
   snd (play ts1 st) ++ snd (play ts2 (fst (play ts1 st)))).
Proof.
  revert st. induction ts1 as [|t ts1 IH]; intro st.
  - simpl. now destruct (play ts2 st).
  - rewrite <- app_comm_cons, !play_cons, IH. simpl. now rewrite app_assoc.
Qed.

(** [run] is [play] on the schedule that runs the effects after every
    handler. *)
Lemma run_is_play (evs : list Event) (st : Client) :
  run evs st = play (ticksOf evs) st.
Proof.
  revert st. induction evs as [|e evs IH]; intro st; [reflexivity|].
  rewrite run_cons. change (ticksOf (e :: evs)) with (Handle e :: RunEffects :: ticksOf evs).
  rewrite !play_cons, IH, step_fst, step_snd. reflexivity.
Qed.

Lemma handle_strokesRef (e : Event) (st : Client) :
  strokesRef (fst (handle e st)) = strokesRef st.
Proof. destruct e; unfold_handlers; break_ifs; reflexivity. Qed.

Lemma play_handlers_strokesRef (ts : list Tick) (st : Client) :
  forallb isHandle ts = true ->
  strokesRef (fst (play ts st)) = strokesRef st.
Proof.
  revert st. induction ts as [|t ts IH]; intros st H; [reflexivity|].
  simpl in H. apply andb_true_iff in H as [Ht Hts].
  rewrite play_cons. cbn [fst]. rewrite (IH _ Hts).
  destruct t; [apply handle_strokesRef | discriminate Ht].
Qed.

(** The ref holds the log as it was when the effects last ran. *)
Lemma strokesRef_of_last_effects (ts1 ts2 : list Tick) (st : Client) :
  forallb isHandle ts2 = true ->
  strokesRef (fst (play (ts1 ++ RunEffects :: ts2) st)) = strokes (fst (play ts1 st)).
Proof.
  intro H. rewrite play_app. cbn [fst]. rewrite play_cons. cbn [fst tick].
  now rewrite (play_handlers_strokesRef ts2 _ H).
Qed.

Lemma play_user_id (ts : list Tick) (st : Client) :
  User.id (currentUser (fst (play ts st))) = User.id (currentUser st).
Proof.
  revert st. induction ts as [|t ts IH]; intro st; [reflexivity|].
  rewrite play_cons. cbn [fst]. rewrite IH.
  destruct t; [apply handle_user_id | reflexivity].
Qed.

(** Two states that differ in the ref only are taken by a handler to two
    states that differ in the ref only, with the same actions, the
    payload of a [sync-state] apart. *)
Lemma handle_forgetRef (e : Event) (st st' : Client) :
  forgetRef st = forgetRef st' ->
  forgetRef (fst (handle e st)) = forgetRef (fst (handle e st')) /\
  filter (fun a => negb (isSyncState a)) (snd (handle e st))
  = filter (fun a => negb (isSyncState a)) (snd (handle e st')).
Proof.
  destruct st, st'. unfold forgetRef, setStrokesRef. simpl. intro H.
  injection H as -> -> -> -> -> -> -> ->.
  destruct e; unfold_handlers; simpl; break_ifs; simpl; split; reflexivity.
Qed.

(** Whatever the ticks at which the effects run, the state differs from
    the state of [run] over the same events in the ref only, and the
    actions are those of [run], the payload of a [sync-state] apart. *)
Lemma play_forgetRef (ts : list Tick) (st st' : Client) :
  forgetRef st = forgetRef st' ->
  forgetRef (fst (play ts st)) = forgetRef (fst (run (eventsOf ts) st')) /\
  filter (fun a => negb (isSyncState a)) (snd (play ts st))
  = filter (fun a => negb (isSyncState a)) (snd (run (eventsOf ts) st')).
Proof.
  revert st st'. induction ts as [|t ts IH]; intros st st' H; [split; [exact H | reflexivity]|].
  rewrite play_cons. destruct t as [e|].
  - change (eventsOf (Handle e :: ts)) with (e :: eventsOf ts).
    rewrite run_cons. cbn [fst snd tick]. rewrite !filter_app, step_snd.
    destruct (handle_forgetRef e st st' H) as [Hs Ha].
    destruct (IH (fst (handle e st)) (fst (step e st'))) as [Hs' Ha'].
    { rewrite step_fst. rewrite Hs. destruct (fst (handle e st')). reflexivity. }
    split; [exact Hs' | now rewrite Ha, Ha'].
  - change (eventsOf (RunEffects :: ts)) with (eventsOf ts). cbn [fst snd tick app].
    apply IH. rewrite <- H. destruct st. reflexivity.
Qed.

(** ** The answer to [req-state] *)

Lemma sorted_head_cons (p : Presence.t) (l : list Presence.t) :
  hd_error (sortByOnlineAt (p :: l))
  = match hd_error (sortByOnlineAt l) with
    | None => Some p
    | Some m => if Presence.online_at p <=? Presence.online_at m then Some p else Some m
    end.
Proof.
  simpl. destruct (sortByOnlineAt l) as [|m rest]; simpl; [reflexivity|].
  now destruct (Presence.online_at p <=? Presence.online_at m).
Qed.

Lemma sorted_head_In (l : list Presence.t) (m : Presence.t) :
  hd_error (sortByOnlineAt l) = Some m -> oldest l m.
Proof.
  destruct (sortByOnlineAt l) as [|p rest] eqn:E; [discriminate|].
  intro H. injection H as <-. now apply sorted_head_oldest with rest.
Qed.

(** The head of the sorted snapshot is the first record of the snapshot
    among those of smallest join time. *)
Lemma sorted_head_first_oldest (l : list Presence.t) (p : Presence.t) :
  hd_error (sortByOnlineAt l) = Some p <->
  exists l1 l2,
    l = l1 ++ p :: l2 /\
    (forall q, In q l1 -> Presence.online_at p < Presence.online_at q) /\
    (forall q, In q l2 -> Presence.online_at p <= Presence.online_at q).
Proof.
  revert p. induction l as [|a l IH]; intro p.
  - split; [discriminate|]. intros (l1 & l2 & E & _). now destruct l1.
  - rewrite sorted_head_cons. split.
    + destruct (hd_error (sortByOnlineAt l)) as [m|] eqn:Em.
      * destruct (Z.leb_spec (Presence.online_at a) (Presence.online_at m)) as [Hle|Hgt];
          intro H; injection H as <-.
        -- exists [], l. repeat split; [intros q []|].
           intros q Hq. destruct (sorted_head_In l m Em) as [_ Hmin].
           specialize (Hmin q Hq). unfold olderEq in Hmin. lia.
        -- destruct (proj1 (IH m) eq_refl) as (l1 & l2 & E & H1 & H2).
           exists (a :: l1), l2. rewrite E. repeat split; auto.
           intros q [<-|Hq]; [lia | now apply H1].
      * intro H. injection H as <-. exists [], l. repeat split; [intros q []|].
        destruct l as [|b l']; [intros q []|].
        exfalso. pose proof (sortByOnlineAt_perm (b :: l')) as P.
        destruct (sortByOnlineAt (b :: l')); [|discriminate].
        apply Permutation_nil in P. discriminate.
    + intros (l1 & l2 & E & H1 & H2). destruct l1 as [|b l1]; simpl in E.
      * injection E as -> ->.
        destruct (hd_error (sortByOnlineAt l2)) as [m|] eqn:Em; [|reflexivity].
        destruct (sorted_head_In l2 m Em) as [Hin _].
        specialize (H2 m Hin).
        destruct (Z.leb_spec (Presence.online_at p) (Presence.online_at m)); [reflexivity | lia].
      * injection E as -> ->.
        assert (Hp : hd_error (sortByOnlineAt (l1 ++ p :: l2)) = Some p).
        { apply IH. exists l1, l2. repeat split; auto. intros q Hq. apply H1. now right. }
        rewrite Hp. specialize (H1 b (or_introl eq_refl)).
        destruct (Z.leb_spec (Presence.online_at b) (Presence.online_at p)); [lia | reflexivity].
Qed.

(** The host test of the handler is [oldestFirst] on the snapshot. *)
Lemma isHost_oldestFirst (me : string) (l : list Presence.t) :
  isHost me l = true <-> oldestFirst me l.
Proof.
  unfold isHost, oldestFirst. split.
  - destruct (sortByOnlineAt l) as [|p rest] eqn:E; [discriminate|].
    intro H. apply String.eqb_eq in H.
    assert (Hp : hd_error (sortByOnlineAt l) = Some p) by now rewrite E.
    apply sorted_head_first_oldest in Hp as (l1 & l2 & El & H1 & H2).
    now exists l1, p, l2.
  - intros (l1 & p & l2 & El & Hme & H1 & H2).
    assert (Hp : hd_error (sortByOnlineAt l) = Some p).
    { apply sorted_head_first_oldest. now exists l1, l2. }
    destruct (sortByOnlineAt l) as [|p' rest]; [discriminate|].
    injection Hp as ->. now apply String.eqb_eq.
Qed.

(** What the [req-state] handler does, at every state: it answers when
    the requester is someone else and the client's own record is the first
    of the flattened snapshot among the oldest, and then with the content
    of the ref; otherwise it sends nothing.  The state is not changed. *)
Lemma req_state_answer (payload : ReqStatePayload.t) (state : PresenceState) (st : Client) :
  ((ReqStatePayload.requesterId payload <> User.id (currentUser st) /\
    oldestFirst (User.id (currentUser st)) (List.concat (map snd state))) ->
   snd (handle (RecvReqState payload state) st)
   = [send (sync_state (SyncStatePayload.mk (strokesRef st)))]) /\
  (~ (ReqStatePayload.requesterId payload <> User.id (currentUser st) /\
      oldestFirst (User.id (currentUser st)) (List.concat (map snd state))) ->
   snd (handle (RecvReqState payload state) st) = []) /\
  fst (handle (RecvReqState payload state) st) = st.
Proof.
  rewrite <- flat_map_concat_map. fold (allPresences state).
  simpl. unfold on_req_state.
  destruct (String.eqb_spec (ReqStatePayload.requesterId payload) (User.id (currentUser st)))
    as [E|E].
  - repeat split; tauto.
  - destruct (isHost (User.id (currentUser st)) (allPresences state)) eqn:Hh.
    + apply isHost_oldestFirst in Hh. repeat split; tauto.
    + assert (~ oldestFirst (User.id (currentUser st)) (allPresences state)).
      { intro H. apply isHost_oldestFirst in H. congruence. }
      repeat split; tauto.
Qed.

(** When the effects have run since the last handler, the answer carries
    the whole log. *)
Lemma req_state_answer_after_effects
    (uid : string) (param : option string) (ts : list Tick)
    (payload : ReqStatePayload.t) (state : PresenceState) :
  ReqStatePayload.requesterId payload <> uid ->
  oldestFirst uid (List.concat (map snd state)) ->
  snd (tick (Handle (RecvReqState payload state)) (fst (live uid param (ts ++ [RunEffects]))))
  = [send (sync_state (SyncStatePayload.mk
                         (strokes (fst (live uid param (ts ++ [RunEffects]))))))].
Proof.
  intros Ha Hb. unfold live.
  set (st := fst (play (ts ++ [RunEffects]) (mount param (init uid)))).
  assert (Hid : User.id (currentUser st) = uid) by apply play_user_id.
  assert (Href : strokesRef st = strokes st).
  { unfold st. rewrite (strokesRef_of_last_effects ts [] _ eq_refl).
    rewrite play_app. reflexivity. }
  destruct (req_state_answer payload state st) as (Hyes & _ & _).
  cbn [tick]. rewrite Hyes, Href; [reflexivity|]. now rewrite Hid.
Qed.

(** C1.  The answer to a [req-state] is not always the whole log.  A host
    that has drawn one stroke receives a [draw-line] and then, before the
    effects of the render run, a [req-state] of someone else; the
    conditions of an answer hold, the log holds two strokes, and the
    [sync-state] sent carries the first only.  Had the effects run in
    between, it would carry both. *)
Theorem req_state_answer_can_be_stale :
  let s1 := Stroke.mk "S1" "a" COLORS.BLACK WIDTHS.PEN [Point.mk 0 0; Point.mk 10 10] in
  let r := Stroke.mk "r" "b" COLORS.RED WIDTHS.PEN [Point.mk 1 2; Point.mk 3 4] in
  let drawn := ticksOf [StartDrawing 0 0 "S1"; Draw 10 10 1000; EndDrawing] in
  let ask := Handle (RecvReqState (ReqStatePayload.mk "d") threeMembers) in
  let host := fst (live "a" None (drawn ++ [Handle (RecvDrawLine r)])) in
  let rendered := fst (live "a" None (drawn ++ [Handle (RecvDrawLine r); RunEffects])) in
  "d" <> User.id (currentUser host) /\
  oldestFirst (User.id (currentUser host)) (List.concat (map snd threeMembers)) /\
  strokes host = [s1; r] /\
  snd (tick ask host) = [send (sync_state (SyncStatePayload.mk [s1]))] /\
  strokes rendered = [s1; r] /\
  snd (tick ask rendered) = [send (sync_state (SyncStatePayload.mk [s1; r]))].
Proof.
  simpl. split; [discriminate|]. split; [|repeat split].
  exists [Presence.mk "c" 3 (Some "Cy")], (Presence.mk "a" 1 (Some "Al")),
    [Presence.mk "b" 2 None].
  repeat split; intros q [<-|[]]; simpl; lia.
Qed.

(** ** Catch-up *)



(** ** The handshake, end to end *)


